(** * GossipBot: intake validation, abuse filter, privacy redactor and store

    A shallow embedding of [server/server.js] (the Express handlers
    [POST /api/submit], [GET /api/admin/list] and [GET /api/health], the
    [risky] pattern, [getCollection] and [closeMongo]) and of
    [server/db.js] (the SQLite table and its two statements), followed by
    the properties of the specification that concern them and by further
    properties of the code. *)

From Stdlib Require Import List NArith ZArith Bool Arith Lia String Ascii.
From Stdlib Require Import Permutation Sorted ZifyBool.
Import ListNotations.

Set Implicit Arguments.
Set Warnings "-register-all".

(* ===================================================================== *)
(** ** JavaScript strings and values *)
(* ===================================================================== *)

Module JS.

(** A JavaScript string is a sequence of UTF-16 code units; [s.length] is
    the number of code units. *)
Definition jsstring := list N.

(** An ASCII literal of the source, as code units. *)
Definition lit (s : string) : jsstring :=
  map N_of_ascii (list_ascii_of_string s).

Definition in_range (lo hi c : N) : bool := (lo <=? c)%N && (c <=? hi)%N.

(** WhiteSpace and LineTerminator of ECMAScript: what [trim] strips and what
    [\s] matches. *)
Definition is_space (c : N) : bool :=
  in_range 9 13 c           (* TAB LF VT FF CR *)
  || (c =? 32)%N            (* SP *)
  || (c =? 160)%N           (* NBSP *)
  || (c =? 5760)%N          (* U+1680 *)
  || in_range 8192 8202 c   (* U+2000 .. U+200A *)
  || (c =? 8232)%N || (c =? 8233)%N   (* LS PS *)
  || (c =? 8239)%N          (* U+202F *)
  || (c =? 8287)%N          (* U+205F *)
  || (c =? 12288)%N         (* U+3000 *)
  || (c =? 65279)%N.        (* U+FEFF *)

Fixpoint trimStart (s : jsstring) : jsstring :=
  match s with
  | c :: s' => if is_space c then trimStart s' else s
  | [] => []
  end.

Definition trimEnd (s : jsstring) : jsstring := rev (trimStart (rev s)).

(** [String.prototype.trim] *)
Definition trim (s : jsstring) : jsstring := trimEnd (trimStart s).

(** [s.slice(0, n)] *)
Definition slice0 (n : nat) (s : jsstring) : jsstring := firstn n s.

(** [s.split(',')[0]]: the part of [s] before its first comma. *)
Fixpoint split_comma_0 (s : jsstring) : jsstring :=
  match s with
  | [] => []
  | c :: s' => if (c =? 44)%N then [] else c :: split_comma_0 s'
  end.

Definition eqb (s t : jsstring) : bool :=
  if list_eq_dec N.eq_dec s t then true else false.

(** A call either returns or throws; the handlers catch every exception in
    one place, so the thrown value itself is not kept. *)
Inductive completion (A : Type) : Type :=
| Return (a : A)
| Throw.
Arguments Throw {A}.

Definition bind {A B} (c : completion A) (f : A -> completion B) : completion B :=
  match c with
  | Return a => f a
  | Throw => Throw
  end.

(** A Number, by what the handler can observe of it: whether it is falsy
    (+0, -0 or NaN) and the text [Number.prototype.toString] gives. *)
Record number := { falsy : bool; decimal : jsstring }.

(** The values a parsed request body is made of. *)
Inductive value : Type :=
| Undefined
| Null
| Bool (b : bool)
| Num (n : number)
| Str (s : jsstring)
| Arr (elems : list value)
| Obj (props : list (jsstring * value)).

(** ToBoolean, as used by [x || y]. *)
Definition truthy (v : value) : bool :=
  match v with
  | Undefined | Null => false
  | Bool b => b
  | Num n => negb (falsy n)
  | Str s => match s with [] => false | _ => true end
  | Arr _ | Obj _ => true
  end.

(** [a || b] *)
Definition or_else (a b : value) : value := if truthy a then a else b.

Fixpoint own (props : list (jsstring * value)) (k : jsstring) : option value :=
  match props with
  | [] => None
  | (k', v) :: rest => if eqb k' k then Some v else own rest k
  end.

(** [o?.k] for a key [k] that no prototype defines. *)
Definition get (o : value) (k : jsstring) : value :=
  match o with
  | Obj props => match own props k with Some v => v | None => Undefined end
  | _ => Undefined
  end.

(** [v.toString()].  On [undefined] and [null] the property read throws.
    An array joins its elements with commas, [null] and [undefined]
    elements giving the empty string.  A plain object gives
    ["[object Object]"], unless it has an own property [toString]: no value
    of a parsed body is callable, so calling it throws. *)
Fixpoint toString (v : value) : completion jsstring :=
  match v with
  | Undefined | Null => Throw
  | Bool b => Return (lit (if b then "true" else "false"))
  | Num n => Return (decimal n)
  | Str s => Return s
  | Arr elems =>
      (fix join (l : list value) : completion jsstring :=
         match l with
         | [] => Return []
         | x :: rest =>
             bind (match x with
                   | Undefined | Null => Return []
                   | _ => toString x
                   end)
               (fun sx =>
                  match rest with
                  | [] => Return sx
                  | _ => bind (join rest) (fun sr => Return (sx ++ 44%N :: sr))
                  end)
         end) elems
  | Obj props =>
      match own props (lit "toString") with
      | Some _ => Throw
      | None => Return (lit "[object Object]")
      end
  end.

End JS.

Notation "x <- c ;; k" := (JS.bind c (fun x => k))
  (at level 61, c at next level, right associativity).

(* ===================================================================== *)
(** ** Regular expressions, as far as [risky] uses them *)
(* ===================================================================== *)

Module RegExp.

Import JS.

(** A character set: a class escape, a range or a single character. *)
Inductive cset : Type :=
| Digit                 (* \d *)
| Space                 (* \s *)
| Word                  (* \w *)
| Range (lo hi : N)     (* a-z *)
| Chr (c : N)
| Union (a b : cset).

Fixpoint member (cs : cset) (c : N) : bool :=
  match cs with
  | Digit => in_range 48 57 c
  | Space => is_space c
  | Word => in_range 97 122 c || in_range 65 90 c || in_range 48 57 c || (c =? 95)%N
  | Range lo hi => in_range lo hi c
  | Chr c' => (c =? c')%N
  | Union a b => member a c || member b c
  end.

Definition upper (c : N) : N := if in_range 97 122 c then (c - 32)%N else c.
Definition lower (c : N) : N := if in_range 65 90 c then (c + 32)%N else c.

(** Canonicalize of a pattern without the [u] flag: the upper-case mapping,
    which is not applied when it would take a code unit above 127 to one
    below 128.  Every member of the sets of [risky] above 127 is a space,
    which is no other character's upper case, so for these sets the
    mapping matters on a-z only. *)
Definition canonicalize (c : N) : N := upper c.

(** Membership under the [i] flag: [c] is accepted when some member of the
    set has the canonical form of [c]. *)
Definition member_i (cs : cset) (c : N) : bool :=
  member cs c || member cs (upper c) || member cs (lower c).

(** The membership test in force: [icase] is the [i] flag. *)
Definition membership (icase : bool) : cset -> N -> bool :=
  if icase then member_i else member.

(** The patterns: every quantifier of [risky] is on a one-character atom. *)
Inductive regex : Type :=
| Atom (cs : cset)                               (* one character of cs *)
| Rep (cs : cset) (min : nat) (max : option nat) (* cs{min,max}, greedy *)
| Seq (r1 r2 : regex)
| Alt (r1 r2 : regex).

Definition Opt (cs : cset) : regex := Rep cs 0 (Some 1).     (* cs? *)
Definition Plus (cs : cset) : regex := Rep cs 1 None.        (* cs+ *)
Definition AtLeast (n : nat) (cs : cset) : regex := Rep cs n None.  (* cs{n,} *)

Definition may_repeat (max : option nat) : bool :=
  match max with Some 0 => false | _ => true end.

Definition dec_max (max : option nat) : option nat :=
  match max with Some n => Some (pred n) | None => None end.

(** The greedy repeat matcher: consume one more character when allowed,
    and fall back to the continuation when the rest fails. *)
Fixpoint repeat_matcher (ok : N -> bool) (min : nat) (max : option nat)
    (s : jsstring) (k : jsstring -> bool) : bool :=
  match s with
  | c :: s' =>
      (may_repeat max && ok c && repeat_matcher ok (pred min) (dec_max max) s' k)
      || ((min =? 0) && k s)
  | [] => (min =? 0) && k []
  end.

(** The backtracking matcher at the start of [s], with continuation [k]. *)
Fixpoint matcher (icase : bool) (r : regex) (s : jsstring)
    (k : jsstring -> bool) : bool :=
  match r with
  | Atom cs =>
      match s with
      | c :: s' => membership icase cs c && k s'
      | [] => false
      end
  | Rep cs min max => repeat_matcher (membership icase cs) min max s k
  | Seq r1 r2 => matcher icase r1 s (fun s' => matcher icase r2 s' k)
  | Alt r1 r2 => matcher icase r1 s k || matcher icase r2 s k
  end.

(** [r.test(s)] for a pattern without the [g] and [y] flags: a match is
    tried at every index from 0. *)
Fixpoint test (icase : bool) (r : regex) (s : jsstring) : bool :=
  matcher icase r s (fun _ => true)
  || match s with
     | [] => false
     | _ :: s' => test icase r s'
     end.

(** The words a pattern matches, read off its syntax; [ok] is the
    membership test in force. *)
Definition within (max : option nat) (n : nat) : Prop :=
  match max with Some m => n <= m | None => True end.

Fixpoint denotes (ok : cset -> N -> bool) (r : regex) (w : jsstring) : Prop :=
  match r with
  | Atom cs => exists c, w = [c] /\ ok cs c = true
  | Rep cs min max =>
      Forall (fun c => ok cs c = true) w /\ min <= List.length w
      /\ within max (List.length w)
  | Seq r1 r2 => exists w1 w2, w = w1 ++ w2 /\ denotes ok r1 w1 /\ denotes ok r2 w2
  | Alt r1 r2 => denotes ok r1 w \/ denotes ok r2 w
  end.

End RegExp.

(* ===================================================================== *)
(** ** [crypto.createHash('sha256').update(s).digest('hex')] *)
(* ===================================================================== *)

Module Sha256.

Import JS.
Local Open Scope N_scope.

(** [update(s)] hashes the UTF-8 encoding of the string; a surrogate that
    is not part of a pair is encoded as U+FFFD. *)
Fixpoint utf8 (s : jsstring) : list N :=
  match s with
  | [] => []
  | c :: s' =>
      if c <? 128 then c :: utf8 s'
      else if c <? 2048 then (192 + c / 64) :: (128 + c mod 64) :: utf8 s'
      else if in_range 55296 56319 c then
        match s' with
        | d :: s'' =>
            if in_range 56320 57343 d then
              let cp := 65536 + (c - 55296) * 1024 + (d - 56320) in
              (240 + cp / 262144) :: (128 + (cp / 4096) mod 64)
                :: (128 + (cp / 64) mod 64) :: (128 + cp mod 64) :: utf8 s''
            else 239 :: 191 :: 189 :: utf8 s'
        | [] => [239; 191; 189]
        end
      else if in_range 56320 57343 c then 239 :: 191 :: 189 :: utf8 s'
      else (224 + c / 4096) :: (128 + (c / 64) mod 64) :: (128 + c mod 64) :: utf8 s'
  end.

Definition mask32 (x : N) : N := x mod 4294967296.
Definition add32 (x y : N) : N := mask32 (x + y).
Definition rotr (n x : N) : N := mask32 (N.lor (N.shiftr x n) (N.shiftl x (32 - n))).
Definition not32 (x : N) : N := N.lxor x 4294967295.

Definition Ch (x y z : N) : N := N.lxor (N.land x y) (N.land (not32 x) z).
Definition Maj (x y z : N) : N :=
  N.lxor (N.lxor (N.land x y) (N.land x z)) (N.land y z).
Definition Sigma0 (x : N) : N := N.lxor (N.lxor (rotr 2 x) (rotr 13 x)) (rotr 22 x).
Definition Sigma1 (x : N) : N := N.lxor (N.lxor (rotr 6 x) (rotr 11 x)) (rotr 25 x).
Definition sigma0 (x : N) : N := N.lxor (N.lxor (rotr 7 x) (rotr 18 x)) (N.shiftr x 3).
Definition sigma1 (x : N) : N := N.lxor (N.lxor (rotr 17 x) (rotr 19 x)) (N.shiftr x 10).

Definition K : list N :=
  [1116352408; 1899447441; 3049323471; 3921009573; 961987163; 1508970993;
   2453635748; 2870763221; 3624381080; 310598401; 607225278; 1426881987;
   1925078388; 2162078206; 2614888103; 3248222580; 3835390401; 4022224774;
   264347078; 604807628; 770255983; 1249150122; 1555081692; 1996064986;
   2554220882; 2821834349; 2952996808; 3210313671; 3336571891; 3584528711;
   113926993; 338241895; 666307205; 773529912; 1294757372; 1396182291;
   1695183700; 1986661051; 2177026350; 2456956037; 2730485921; 2820302411;
   3259730800; 3345764771; 3516065817; 3600352804; 4094571909; 275423344;
   430227734; 506948616; 659060556; 883997877; 958139571; 1322822218;
   1537002063; 1747873779; 1955562222; 2024104815; 2227730452; 2361852424;
   2428436474; 2756734187; 3204031479; 3329325298].

(** The eight working variables a..h. *)
Record state := mk_state { va : N; vb : N; vc : N; vd : N; ve : N; vf : N; vg : N; vh : N }.

Definition H0 : state :=
  mk_state 1779033703 3144134277 1013904242 2773480762
           1359893119 2600822924 528734635 1541459225.

Definition round (st : state) (k w : N) : state :=
  let t1 := add32 (add32 (add32 (add32 (vh st) (Sigma1 (ve st)))
                     (Ch (ve st) (vf st) (vg st))) k) w in
  let t2 := add32 (Sigma0 (va st)) (Maj (va st) (vb st) (vc st)) in
  mk_state (add32 t1 t2) (va st) (vb st) (vc st)
           (add32 (vd st) t1) (ve st) (vf st) (vg st).

(** The 64 rounds over a sliding window [W t, ..., W (t+15)] of the message
    schedule. *)
Fixpoint rounds (ks : list N) (win : list N) (st : state) : state :=
  match ks with
  | [] => st
  | k :: ks' =>
      let w := nth 0 win 0 in
      let next := add32 (add32 (add32 (sigma1 (nth 14 win 0)) (nth 9 win 0))
                           (sigma0 (nth 1 win 0))) w in
      rounds ks' (tl win ++ [next]) (round st k w)
  end.

Fixpoint words (bytes : list N) : list N :=
  match bytes with
  | b0 :: b1 :: b2 :: b3 :: rest =>
      (((b0 * 256 + b1) * 256 + b2) * 256 + b3) :: words rest
  | _ => []
  end.

Definition compress (st : state) (block : list N) : state :=
  let r := rounds K (words block) st in
  mk_state (add32 (va st) (va r)) (add32 (vb st) (vb r))
           (add32 (vc st) (vc r)) (add32 (vd st) (vd r))
           (add32 (ve st) (ve r)) (add32 (vf st) (vf r))
           (add32 (vg st) (vg r)) (add32 (vh st) (vh r)).

(** Blocks of 64 bytes are compressed as they fill up; [buf] is the current
    block, last byte first, and [n] its length. *)
Fixpoint absorb (st : state) (buf : list N) (n : nat) (bytes : list N) : state :=
  match bytes with
  | [] => st
  | b :: rest =>
      if Nat.eqb n 63 then absorb (compress st (rev (b :: buf))) [] 0%nat rest
      else absorb st (b :: buf) (S n) rest
  end.

Fixpoint big_endian (width : nat) (x : N) : list N :=
  match width with
  | O => []
  | S w => big_endian w (x / 256) ++ [x mod 256]
  end.

(** The message, a 1 bit, zeros up to 56 mod 64, and the bit length. *)
Definition pad (msg : list N) : list N :=
  let len := List.length msg in
  let zeros := ((119 - len mod 64) mod 64)%nat in
  msg ++ 128 :: repeat 0 zeros ++ big_endian 8 (8 * N.of_nat len).

Definition hex_digit (d : N) : N := if d <? 10 then 48 + d else 87 + d.

Fixpoint hex (digits : nat) (x : N) : jsstring :=
  match digits with
  | O => []
  | S n => hex n (x / 16) ++ [hex_digit (x mod 16)]
  end.

Definition digest (msg : list N) : state := absorb H0 [] 0%nat (pad msg).

Definition digest_hex (s : jsstring) : jsstring :=
  let st := digest (utf8 s) in
  hex 8 (va st) ++ hex 8 (vb st) ++ hex 8 (vc st) ++ hex 8 (vd st)
  ++ hex 8 (ve st) ++ hex 8 (vf st) ++ hex 8 (vg st) ++ hex 8 (vh st).

Arguments digest_hex : simpl never.

End Sha256.


(* ===================================================================== *)
(** ** Queries that sort: [ORDER BY created_at DESC], [sort({created_at:-1})] *)
(* ===================================================================== *)

Module Query.

Section OrderBy.
Variable A : Type.
Variable key : A -> Z.

Definition desc (a b : A) : Prop := (key b <= key a)%Z.

(** The engine returns the rows in some order that is descending in the
    key; the query says nothing about rows with equal keys. *)
Definition order_by_desc (rows sorted : list A) : Prop :=
  Permutation rows sorted /\ StronglySorted desc sorted.

(** One such order, computed: insertion keeps earlier rows first among
    equal keys. *)
Fixpoint insert_desc (a : A) (l : list A) : list A :=
  match l with
  | [] => [a]
  | b :: l' => if (key b <? key a)%Z then a :: l else b :: insert_desc a l'
  end.

Fixpoint sort_desc (l : list A) : list A :=
  match l with
  | [] => []
  | a :: l' => insert_desc a (sort_desc l')
  end.
End OrderBy.

End Query.

(* ===================================================================== *)
(** ** The MongoDB collection of [server.js] *)
(* ===================================================================== *)

Module Mongo.

Import JS.

(** An ObjectId, as the 96-bit number its 12 bytes spell. *)
Definition ObjectId := N.

(** [id.toString()]: 24 hex digits. *)
Definition ObjectId_toString (id : ObjectId) : jsstring := Sha256.hex 24 id.

Arguments ObjectId_toString : simpl never.

(** The object literal [doc] of the submit handler. *)
Record doc := {
  text : jsstring;
  lang : jsstring;
  status : jsstring;
  created_at : Z;                 (* a Date: milliseconds since the epoch *)
  ip_hash : option jsstring;      (* a string or null *)
  ua : jsstring
}.

(** A document of the collection: the driver adds [_id]. *)
Record stored := { _id : ObjectId; fields : doc }.

Definition collection := list stored.

(** What the server and the driver answer during one request: whether
    [getCollection()] returns, the id a successful [insertOne] assigns
    ([Throw] when the write fails), whether [toArray()] returns, and the
    clock read by [new Date()]. *)
Record env := {
  getCollection : completion unit;
  insertedId : completion ObjectId;
  toArray : completion unit;
  now : Z
}.

(** [c.insertOne(doc)] *)
Definition insertOne (e : env) (c : collection) (d : doc)
  : completion (ObjectId * collection) :=
  id <- insertedId e ;;
  Return (id, c ++ [{| _id := id; fields := d |}]).

(** What [project({ text: 1, lang: 1, status: 1, created_at: 1 })] keeps of
    a document; [_id] is kept unless excluded. *)
Record item := {
  item_id : ObjectId;
  item_text : jsstring;
  item_lang : jsstring;
  item_status : jsstring;
  item_created_at : Z
}.

Definition project (d : stored) : item :=
  {| item_id := _id d;
     item_text := text (fields d);
     item_lang := lang (fields d);
     item_status := status (fields d);
     item_created_at := created_at (fields d) |}.

(** [c.find({}).sort({ created_at: -1 }).limit(n).project(..).toArray()] *)
Definition find_sort_limit_project (c : collection) (n : nat)
    (items : list item) : Prop :=
  exists sorted,
    Query.order_by_desc (fun d => created_at (fields d)) c sorted
    /\ items = map project (firstn n sorted).

End Mongo.

(* ===================================================================== *)
(** ** [server/server.js] *)
(* ===================================================================== *)

Module Server.

Import JS RegExp Mongo.

(** What the handlers read of a request. *)
Record request := {
  body : value;                          (* req.body *)
  x_forwarded_for : option jsstring;     (* req.headers['x-forwarded-for'] *)
  remoteAddress : option jsstring;       (* req.socket.remoteAddress *)
  user_agent : option jsstring           (* req.get('user-agent') *)
}.

Inductive response : Type :=
| Text (code : nat) (content : jsstring)        (* res.status(code).type('text').send(content) *)
| Json (code : nat) (ok : bool) (items : option (list item)).  (* res.status(code).json({ ok, items }) *)

(** [/(\+?\d[\d\s\-()]{8,})|([\w.+-]+@[\w-]+\.[a-z]{2,})|(t\.me\/)/i] *)
Definition phone : regex :=
  Seq (Opt (Chr 43))
      (Seq (Atom Digit)
           (AtLeast 8 (Union Digit (Union Space (Union (Chr 45) (Union (Chr 40) (Chr 41))))))).

Definition email : regex :=
  Seq (Plus (Union Word (Union (Chr 46) (Union (Chr 43) (Chr 45)))))
      (Seq (Atom (Chr 64))
           (Seq (Plus (Union Word (Chr 45)))
                (Seq (Atom (Chr 46))
                     (AtLeast 2 (Range 97 122))))).

Definition invite : regex :=
  Seq (Atom (Chr 116)) (Seq (Atom (Chr 46)) (Seq (Atom (Chr 109))
      (Seq (Atom (Chr 101)) (Atom (Chr 47))))).

Definition risky : regex := Alt phone (Alt email invite).

(** [risky.test(text)] *)
Definition risky_test (text : jsstring) : bool := test true risky text.

(** [v === 'ru'] and the like *)
Definition strict_eq_string (v : value) (s : jsstring) : bool :=
  match v with
  | Str s' => eqb s' s
  | _ => false
  end.

Definition or_empty (h : option jsstring) : jsstring :=
  match h with Some s => s | None => [] end.

(** [(req.headers['x-forwarded-for'] || '').toString().split(',')[0].trim()
     || req.socket.remoteAddress || ''] *)
Definition client_ip (req : request) : jsstring :=
  match trim (split_comma_0 (or_empty (x_forwarded_for req))) with
  | [] => or_empty (remoteAddress req)
  | fwd => fwd
  end.

(** [ip ? crypto.createHash('sha256').update(ip).digest('hex').slice(0, 16) : null] *)
Definition ip_hash_of (ip : jsstring) : option jsstring :=
  match ip with
  | [] => None
  | _ => Some (slice0 16 (Sha256.digest_hex ip))
  end.

(** [String(req.get('user-agent') || '').slice(0, 180)] *)
Definition ua_of (req : request) : jsstring :=
  slice0 180 (or_empty (user_agent req)).

Definition InvalidLength : response := Text 400 (lit "Invalid length").
Definition PiiDetected : response := Text 400 (lit "PII detected").
Definition DbError : response := Text 500 (lit "DB error").

(** [(req.body?.lang === 'ru') ? 'ru' : 'en'] *)
Definition lang_of (req : request) : jsstring :=
  if strict_eq_string (get (body req) (lit "lang")) (lit "ru")
  then lit "ru" else lit "en".

(** The body of the [try] of [app.post('/api/submit')]. *)
Definition submit_try (e : env) (c : collection) (req : request)
  : completion (response * collection) :=
  _ <- getCollection e ;;
  text <- toString (or_else (get (body req) (lit "text")) (Str [])) ;;
  let text := trim text in
  let lang := lang_of req in
  if (List.length text <? 10) || (2000 <? List.length text) then
    Return (InvalidLength, c)
  else if risky_test text then
    Return (PiiDetected, c)
  else
    let ip := client_ip req in
    let ip_hash := ip_hash_of ip in
    let ua := ua_of req in
    let doc := {| text := text;
                  lang := lang;
                  status := lit "pending";
                  created_at := now e;
                  ip_hash := ip_hash;
                  ua := ua |} in
    result <- insertOne e c doc ;;
    Return (Text 201 (ObjectId_toString (fst result)), snd result).

(** [app.post('/api/submit')]: the response sent and the collection left. *)
Definition submit (e : env) (c : collection) (req : request)
  : response * collection :=
  match submit_try e c req with
  | Return r => r
  | Throw => (DbError, c)
  end.

(** [app.get('/api/admin/list')]: the responses the handler may send. *)
Inductive admin_list (e : env) (c : collection) : response -> Prop :=
| admin_list_items (items : list item) :
    getCollection e = Return tt ->
    toArray e = Return tt ->
    find_sort_limit_project c 50 items ->
    admin_list e c (Json 200 true (Some items))
| admin_list_error :
    getCollection e = Throw \/ toArray e = Throw ->
    admin_list e c (Json 500 false None).

End Server.

(* ===================================================================== *)
(** ** [server/db.js] *)
(* ===================================================================== *)

Module Db.

Import JS.

(** A row of [submissions].  [text], [lang], [status] and [created_at] are
    NOT NULL; [created_at] is a fixed-width text, ordered as the seconds it
    spells. *)
Record row := {
  id : Z;
  text : jsstring;
  lang : jsstring;
  status : jsstring;
  ip_hash : option jsstring;
  ua : option jsstring;
  created_at : Z
}.

(** [CHECK (x IN (..))] *)
Definition check_in (x : jsstring) (allowed : list jsstring) : bool :=
  existsb (eqb x) allowed.

(** The CHECK constraints of [CREATE TABLE submissions]: the table takes a
    row, on insertion or update, only when they hold. *)
Definition admits (r : row) : bool :=
  check_in (lang r) [lit "en"; lit "ru"]
  && check_in (status r) [lit "pending"; lit "approved"; lit "rejected"].

(** The table, with the AUTOINCREMENT counter of [sqlite_sequence]. *)
Record table := { rows : list row; seq : Z }.

(** The bound parameters [@text, @lang, @ip_hash, @ua]: a text or null. *)
Record payload := {
  p_text : option jsstring;
  p_lang : option jsstring;
  p_ip_hash : option jsstring;
  p_ua : option jsstring
}.

Definition next_id (t : table) : Z :=
  (fold_right Z.max (seq t) (map id (rows t)) + 1)%Z.

(** [insertStmt.run(payload)]: [status] and [created_at] are not among the
    columns, so they take their defaults ['pending'] and [datetime('now')];
    a NULL in a NOT NULL column or a failed CHECK makes [run] throw. *)
Definition insertStmt_run (now : Z) (t : table) (p : payload)
  : completion (Z * table) :=
  match p_text p, p_lang p with
  | Some text, Some lang =>
      let r := {| id := next_id t;
                  text := text;
                  lang := lang;
                  status := lit "pending";
                  ip_hash := p_ip_hash p;
                  ua := p_ua p;
                  created_at := now |} in
      if admits r then Return (id r, {| rows := rows t ++ [r]; seq := id r |})
      else Throw
  | _, _ => Throw
  end.

(** [insertSubmission(payload)] returns [info.lastInsertRowid]. *)
Definition insertSubmission (now : Z) (t : table) (p : payload)
  : completion (Z * table) :=
  insertStmt_run now t p.

(** The columns [SELECT id, text, lang, status, created_at] returns. *)
Record listed := {
  l_id : Z;
  l_text : jsstring;
  l_lang : jsstring;
  l_status : jsstring;
  l_created_at : Z
}.

Definition select (r : row) : listed :=
  {| l_id := id r; l_text := text r; l_lang := lang r;
     l_status := status r; l_created_at := created_at r |}.

(** [LIMIT n]: a negative [n] is no limit. *)
Definition limit_rows {A} (n : Z) (l : list A) : list A :=
  if (n <? 0)%Z then l else firstn (Z.to_nat n) l.

(** [listLatestStmt.all({ limit })]:
    [SELECT .. FROM submissions ORDER BY created_at DESC LIMIT @limit] *)
Definition listLatestStmt_all (t : table) (limit : Z) (out : list listed) : Prop :=
  exists sorted,
    Query.order_by_desc created_at (rows t) sorted
    /\ out = map select (limit_rows limit sorted).

(** [listLatest(limit = 100)]: an absent argument is 100. *)
Definition listLatest (t : table) (limit : option Z) (out : list listed) : Prop :=
  listLatestStmt_all t (match limit with Some n => n | None => 100%Z end) out.

End Db.

(* ===================================================================== *)
(** ** The abuse filter in the words of the specification *)
(* ===================================================================== *)

Module Pii.

Import JS.

Definition digit (c : N) : bool := in_range 48 57 c.
Definition letter (c : N) : bool := in_range 65 90 c || in_range 97 122 c.
Definition word_char (c : N) : bool := letter c || digit c || (c =? 95)%N.

(** Digits and the separators allowed between them: white space, hyphen
    and parentheses. *)
Definition phone_char (c : N) : bool :=
  digit c || is_space c || (c =? 45)%N || (c =? 40)%N || (c =? 41)%N.

Definition local_char (c : N) : bool :=
  word_char c || (c =? 46)%N || (c =? 43)%N || (c =? 45)%N.

Definition domain_char (c : N) : bool := word_char c || (c =? 45)%N.

Definition all (p : N -> bool) (w : jsstring) : Prop := Forall (fun c => p c = true) w.

Definition digits (w : jsstring) : nat := List.length (filter digit w).

(** "digit sequences of 9+ digits allowing separators/parentheses" *)
Definition nine_digits (w : jsstring) : Prop := all phone_char w /\ 9 <= digits w.

(** What the pattern asks of a phone-like run: a digit, then eight or more
    digits or separators. *)
Definition phone_like (w : jsstring) : Prop :=
  exists d run, w = d :: run /\ digit d = true
                /\ 8 <= List.length run /\ all phone_char run.

(** [local@domain.tld] with a TLD of two or more letters *)
Definition email_like (w : jsstring) : Prop :=
  exists loc dom tld,
    w = loc ++ 64%N :: dom ++ 46%N :: tld
    /\ loc <> [] /\ all local_char loc
    /\ dom <> [] /\ all domain_char dom
    /\ 2 <= List.length tld /\ all letter tld.

(** The invite-link prefix [t.me/], in either case of its letters *)
Definition invite_link (w : jsstring) : Prop :=
  exists t m e,
    w = [t; 46; m; e; 47]%N
    /\ (t = 116 \/ t = 84)%N /\ (m = 109 \/ m = 77)%N /\ (e = 101 \/ e = 69)%N.

Definition contains (P : jsstring -> Prop) (s : jsstring) : Prop :=
  exists pre w post, s = pre ++ w ++ post /\ P w.

End Pii.

(* ===================================================================== *)
(** ** Vocabulary of the statements *)
(* ===================================================================== *)

Module Claims.

Import JS Mongo Server.

(** The trimmed length the intake accepts. *)
Definition valid_length (text : jsstring) : Prop :=
  10 <= List.length text <= 2000.

(** The text the handler validates: [(v || '').toString()] of the [text]
    property of the body. *)
Definition coerced (req : request) : completion jsstring :=
  toString (or_else (get (body req) (lit "text")) (Str [])).

(** A 201 answer. *)
Definition accepted (r : response) : bool :=
  match r with
  | Text 201 _ => true
  | _ => false
  end.

(** The request [req] with the text replaced by [v]. *)
Definition with_text (req : request) (v : value) : request :=
  {| body := Obj [(lit "text", v); (lit "lang", get (body req) (lit "lang"))];
     x_forwarded_for := x_forwarded_for req;
     remoteAddress := remoteAddress req;
     user_agent := user_agent req |}.

Definition is_string (v : value) : bool :=
  match v with Str _ => true | _ => false end.

Definition lang_ok (l : jsstring) : Prop := l = lit "en" \/ l = lit "ru".

(** Two documents that differ at most in [ip_hash] and [ua]. *)
Definition same_but_identity (d1 d2 : stored) : Prop :=
  _id d1 = _id d2
  /\ text (fields d1) = text (fields d2)
  /\ lang (fields d1) = lang (fields d2)
  /\ status (fields d1) = status (fields d2)
  /\ created_at (fields d1) = created_at (fields d2).

(** Two rows of the SQLite table that differ at most in [ip_hash] and [ua]. *)
Definition same_but_identity_row (r1 r2 : Db.row) : Prop :=
  Db.id r1 = Db.id r2
  /\ Db.text r1 = Db.text r2
  /\ Db.lang r1 = Db.lang r2
  /\ Db.status r1 = Db.status r2
  /\ Db.created_at r1 = Db.created_at r2.

(** Two requests that differ at most in who sends them. *)
Definition same_body (r1 r2 : request) : Prop := body r1 = body r2.

(** Newest first. *)
Definition newest_first (items : list item) : Prop :=
  StronglySorted (fun a b => (item_created_at b <= item_created_at a)%Z) items.

Definition newest_first_rows (out : list Db.listed) : Prop :=
  StronglySorted (fun a b => (Db.l_created_at b <= Db.l_created_at a)%Z) out.

(** Newest first, and by [id] among equal [created_at]: ascending when
    [asc], descending otherwise. *)
Definition tie_break (asc : bool) (id1 id2 : Z) : Prop :=
  if asc then (id1 < id2)%Z else (id2 < id1)%Z.

Definition newest_first_then_id (asc : bool) (items : list item) : Prop :=
  StronglySorted
    (fun a b => (item_created_at b < item_created_at a)%Z
                \/ (item_created_at b = item_created_at a
                    /\ tie_break asc (Z.of_N (item_id a)) (Z.of_N (item_id b))))
    items.

Definition hex_char (c : N) : bool := in_range 48 57 c || in_range 97 102 c.

(** The document the handler builds for the validated text [text]. *)
Definition built (e : env) (req : request) (text : jsstring) : doc :=
  {| text := text;
     lang := lang_of req;
     status := lit "pending";
     created_at := now e;
     ip_hash := ip_hash_of (client_ip req);
     ua := ua_of req |}.

(** No address: nothing usable in [x-forwarded-for] and no socket address. *)
Definition no_address (req : request) : Prop :=
  trim (split_comma_0 (or_empty (x_forwarded_for req))) = []
  /\ or_empty (remoteAddress req) = [].

End Claims.

(* ===================================================================== *)
(** ** Sample requests and stores *)
(* ===================================================================== *)

Module Samples.

Import JS Mongo Server.

(** A server whose collection is reachable and whose next insert gets the
    id 0x65f1a2b3c4d5e6f708192a3b. *)
Definition new_id : ObjectId := 31550105454003888198981855803%N.

Definition up : env :=
  {| getCollection := Return tt;
     insertedId := Return new_id;
     toArray := Return tt;
     now := 1700000000000%Z |}.

(** A request from 127.0.0.1 with the body [{ text: v, lang: "ru" }]. *)
Definition post (v : value) : request :=
  {| body := Obj [(lit "text", v); (lit "lang", Str (lit "ru"))];
     x_forwarded_for := None;
     remoteAddress := Some (lit "127.0.0.1");
     user_agent := Some (lit "Mozilla/5.0") |}.

Definition downtown : jsstring := lit "Saw something odd downtown today".
Definition years : jsstring := lit "We lived there 1999 - 2004, good times".

(** Two documents inserted within the same millisecond. *)
Definition note (id : ObjectId) (text : jsstring) : stored :=
  {| _id := id;
     fields := {| text := text; lang := lit "en"; status := lit "pending";
                  created_at := 1700000000000%Z; ip_hash := None; ua := [] |} |}.

Definition first_note : stored := note 1%N downtown.
Definition second_note : stored := note 2%N (lit "Another thing happened today").

(** The first note, with the sender's fingerprint and user agent. *)
Definition traced_note : stored :=
  {| _id := 1%N;
     fields := {| text := downtown; lang := lit "en"; status := lit "pending";
                  created_at := 1700000000000%Z;
                  ip_hash := Some (lit "12ca17b49af22894");
                  ua := lit "Mozilla/5.0" |} |}.

(** The same body as [post v], sent through a proxy by another client. *)
Definition proxied (v : value) : request :=
  {| body := body (post v);
     x_forwarded_for := Some (lit "203.0.113.7, 10.0.0.1");
     remoteAddress := Some (lit "10.0.0.1");
     user_agent := Some (lit "curl/8.5.0") |}.

(** A row that would hold a published submission. *)
Definition published_row : Db.row :=
  {| Db.id := 1%Z;
     Db.text := downtown;
     Db.lang := lit "en";
     Db.status := lit "published";
     Db.ip_hash := None;
     Db.ua := None;
     Db.created_at := 1700000000%Z |}.

Definition empty_table : Db.table := {| Db.rows := []; Db.seq := 0%Z |}.

Definition payload_en : Db.payload :=
  {| Db.p_text := Some downtown; Db.p_lang := Some (lit "en");
     Db.p_ip_hash := None; Db.p_ua := None |}.

End Samples.

(* ===================================================================== *)
(** ** The connection of [server.js]: [getCollection], [closeMongo], health *)
(* ===================================================================== *)

Module Connect.

Import JS.

(** The variables of [process.env] that decide the connection: a string,
    or undefined. *)
Record process_env := {
  env_MONGODB_URI : option jsstring;
  env_DB_NAME : option jsstring;
  env_COLLECTION : option jsstring
}.

(** [v || d] on a string or undefined: the empty string is falsy too. *)
Definition or_default (v : option jsstring) (d : jsstring) : jsstring :=
  match v with
  | Some (c :: s) => c :: s
  | _ => d
  end.

(** [const DB_NAME = process.env.DB_NAME || 'gossip'] *)
Definition DB_NAME (p : process_env) : jsstring :=
  or_default (env_DB_NAME p) (lit "gossip").

(** [const COLLECTION = process.env.COLLECTION || 'submissions'] *)
Definition COLLECTION (p : process_env) : jsstring :=
  or_default (env_COLLECTION p) (lit "submissions").

(** [!MONGODB_URI] *)
Definition no_uri (p : process_env) : bool :=
  match env_MONGODB_URI p with
  | Some (_ :: _) => false
  | _ => true
  end.

(** A [MongoClient] object, by the order in which the process made it. *)
Definition client := nat.

(** [client.db(DB_NAME).collection(COLLECTION)] *)
Record handle := { of_client : client; db : jsstring; name : jsstring }.

(** The key of an index: [{ status: 1, created_at: -1 }] is
    [[("status", 1); ("created_at", -1)]]. *)
Definition index_key := list (jsstring * Z).

Definition by_status_created : index_key :=
  [(lit "status", 1%Z); (lit "created_at", (-1)%Z)].

Definition by_created : index_key := [(lit "created_at", (-1)%Z)].

(** The calls made to the server, oldest first. *)
Inductive event : Type :=
| Connected (c : client)                      (* mongoClient.connect() *)
| CreateIndex (c : client) (k : index_key)    (* col.createIndex(k) *)
| Ping (c : client)                           (* db('admin').command({ ping: 1 }) *)
| Count (c : client)                          (* c.estimatedDocumentCount(..) *)
| Closed (c : client).                        (* mongoClient.close() *)

(** The module variables [mongoClient] and [col], the number of clients
    made so far, and the calls made. *)
Record state := {
  mongoClient : option client;
  col : option handle;
  made : nat;
  log : list event
}.

Definition initial : state :=
  {| mongoClient := None; col := None; made := 0; log := [] |}.

(** Whether each awaited call returns ([true]) or throws, during one run of
    a function. *)
Record answers := {
  connect_ok : bool;
  createIndex1_ok : bool;
  createIndex2_ok : bool;
  ping_ok : bool;
  count_ok : bool;
  close_ok : bool
}.

Definition logged (s : state) (ev : event) : state :=
  {| mongoClient := mongoClient s; col := col s; made := made s;
     log := log s ++ [ev] |}.

(** [getCollection()], run to its end before anything else runs. *)
Definition getCollection (p : process_env) (a : answers) (s : state)
  : completion handle * state :=
  match col s with
  | Some h => (Return h, s)                                  (* if (col) return col *)
  | None =>
      if no_uri p then (Throw, s)
      else
        let n := made s in
        let s1 := logged {| mongoClient := Some n; col := None;
                            made := S n; log := log s |} (Connected n) in
        if negb (connect_ok a) then (Throw, s1)
        else
          let h := {| of_client := n; db := DB_NAME p; name := COLLECTION p |} in
          let s2 := logged {| mongoClient := Some n; col := Some h;
                              made := S n; log := log s1 |}
                           (CreateIndex n by_status_created) in
          if negb (createIndex1_ok a) then (Throw, s2)
          else
            let s3 := logged s2 (CreateIndex n by_created) in
            if negb (createIndex2_ok a) then (Throw, s3)
            else
              let s4 := logged s3 (Ping n) in
              if negb (ping_ok a) then (Throw, s4)
              else (Return h, s4)
  end.

(** [closeMongo()]: [try { await mongoClient?.close(); } catch {}], then
    both variables are set to null. *)
Definition closeMongo (a : answers) (s : state) : state :=
  let attempt : completion unit * state :=
    match mongoClient s with
    | Some n => (if close_ok a then Return tt else Throw, logged s (Closed n))
    | None => (Return tt, s)
    end in
  let after := match fst attempt with
               | Return _ => snd attempt
               | Throw => snd attempt            (* catch {} *)
               end in
  {| mongoClient := None; col := None; made := made after; log := log after |}.

(** [res.status(code).json({ ok, db })] *)
Inductive health_response : Type :=
| Health (code : nat) (ok db : bool).

(** The body of the [try] of [app.get('/api/health')]. *)
Definition health_try (p : process_env) (a : answers) (s : state)
  : completion health_response * state :=
  if no_uri p then (Return (Health 200 true false), s)
  else
    match getCollection p a s with
    | (Throw, s') => (Throw, s')
    | (Return c, s') =>
        let s'' := logged s' (Count (of_client c)) in
        if count_ok a then (Return (Health 200 true true), s'')
        else (Throw, s'')
    end.

(** [app.get('/api/health')] *)
Definition health (p : process_env) (a : answers) (s : state)
  : health_response * state :=
  match health_try p a s with
  | (Return r, s') => (r, s')
  | (Throw, s') => (Health 500 false false, s')
  end.

(** The driver's answers [e] to a handler, with [getCollection] decided by
    the connection. *)
Definition env_of (g : completion handle) (e : Mongo.env) : Mongo.env :=
  {| Mongo.getCollection := match g with Return _ => Return tt | Throw => Throw end;
     Mongo.insertedId := Mongo.insertedId e;
     Mongo.toArray := Mongo.toArray e;
     Mongo.now := Mongo.now e |}.

(** [app.post('/api/submit')] with the connection it opens or reuses. *)
Definition post_submit (p : process_env) (a : answers) (s : state)
    (e : Mongo.env) (c : Mongo.collection) (req : Server.request)
  : Server.response * Mongo.collection * state :=
  let g := getCollection p a s in
  (Server.submit (env_of (fst g) e) c req, snd g).

(** What runs one after the other in the process. *)
Inductive op : Type :=
| GetCollection (a : answers)
| CloseMongo (a : answers)
| GetHealth (a : answers).

Definition step (p : process_env) (s : state) (o : op) : state :=
  match o with
  | GetCollection a => snd (getCollection p a s)
  | CloseMongo a => closeMongo a s
  | GetHealth a => snd (health p a s)
  end.

Definition run (p : process_env) (ops : list op) (s : state) : state :=
  fold_left (step p) ops s.

(** The cached collection belongs to the current client, and no client is
    newer than the count of clients made. *)
Definition coherent (s : state) : Prop :=
  (forall h, col s = Some h -> mongoClient s = Some (of_client h))
  /\ (forall n, mongoClient s = Some n -> n < made s).

End Connect.

(* ===================================================================== *)
(** ** More vocabulary *)
(* ===================================================================== *)

Module Facts.

Import JS Mongo Server.

(** A document as the handler stores it. *)
Definition well_formed (d : stored) : Prop :=
  trim (text (fields d)) = text (fields d)
  /\ Claims.valid_length (text (fields d))
  /\ risky_test (text (fields d)) = false
  /\ Claims.lang_ok (lang (fields d))
  /\ status (fields d) = lit "pending"
  /\ List.length (ua (fields d)) <= 180
  /\ (ip_hash (fields d) = None
      \/ exists h, ip_hash (fields d) = Some h /\ List.length h = 16
                   /\ Forall (fun c => Claims.hex_char c = true) h).

(** The request [req] with another [x-forwarded-for] header. *)
Definition forwarded_for (req : request) (h : option jsstring) : request :=
  {| body := body req;
     x_forwarded_for := h;
     remoteAddress := remoteAddress req;
     user_agent := user_agent req |}.

(** Neither a digit, nor [@], nor [/]. *)
Definition plain (c : N) : bool :=
  negb (Pii.digit c) && negb (c =? 64)%N && negb (c =? 47)%N.


End Facts.

(* ===================================================================== *)
(** ** More samples *)
(* ===================================================================== *)

Module More.

Import JS Mongo Server.


(** [MONGODB_URI=mongodb://localhost:27017], the other variables unset. *)
Definition local : Connect.process_env :=
  {| Connect.env_MONGODB_URI := Some (lit "mongodb://localhost:27017");
     Connect.env_DB_NAME := None;
     Connect.env_COLLECTION := None |}.

(** No variable set. *)
Definition unset : Connect.process_env :=
  {| Connect.env_MONGODB_URI := None;
     Connect.env_DB_NAME := None;
     Connect.env_COLLECTION := None |}.

Definition all_ok : Connect.answers :=
  {| Connect.connect_ok := true; Connect.createIndex1_ok := true;
     Connect.createIndex2_ok := true; Connect.ping_ok := true;
     Connect.count_ok := true; Connect.close_ok := true |}.

(** The server is reached, but the first [createIndex] fails. *)
Definition no_index : Connect.answers :=
  {| Connect.connect_ok := true; Connect.createIndex1_ok := false;
     Connect.createIndex2_ok := true; Connect.ping_ok := true;
     Connect.count_ok := true; Connect.close_ok := true |}.

Definition close_fails : Connect.answers :=
  {| Connect.connect_ok := true; Connect.createIndex1_ok := true;
     Connect.createIndex2_ok := true; Connect.ping_ok := true;
     Connect.count_ok := true; Connect.close_ok := false |}.

End More.

(* ===================================================================== *)
(** * Properties *)
(* ===================================================================== *)



(** ** Character sets *)

Section Sets.

Import JS RegExp.

Ltac split_ifs :=
  repeat match goal with
         | |- context [if ?b then _ else _] => destruct b eqn:?
         | H : context [if ?b then _ else _] |- _ => destruct b eqn:?
         end.

Lemma is_space_iff c :
  is_space c = true <->
  ((9 <= c <= 13) \/ c = 32 \/ c = 160 \/ c = 5760 \/ (8192 <= c <= 8202)
   \/ c = 8232 \/ c = 8233 \/ c = 8239 \/ c = 8287 \/ c = 12288 \/ c = 65279)%N.
Proof. unfold is_space, in_range. lia. Qed.

Lemma member_i_union a b c :
  member_i (Union a b) c = member_i a c || member_i b c.
Proof.
  unfold member_i. simpl.
  destruct (member a c), (member a (upper c)), (member a (lower c)),
    (member b c), (member b (upper c)), (member b (lower c)); reflexivity.
Qed.

Lemma member_i_digit c : member_i Digit c = Pii.digit c.
Proof.
  unfold member_i, upper, lower, Pii.digit, in_range. simpl. unfold in_range.
  destruct ((97 <=? c)%N && (c <=? 122)%N) eqn:E1,
           ((65 <=? c)%N && (c <=? 90)%N) eqn:E2; lia.
Qed.

Lemma member_i_space c : member_i Space c = is_space c.
Proof.
  unfold member_i. simpl.
  assert (U : is_space (upper c) = true -> is_space c = true).
  { unfold upper, in_range.
    destruct ((97 <=? c)%N && (c <=? 122)%N) eqn:E; auto.
    rewrite is_space_iff. lia. }
  assert (L : is_space (lower c) = true -> is_space c = true).
  { unfold lower, in_range.
    destruct ((65 <=? c)%N && (c <=? 90)%N) eqn:E; auto.
    rewrite is_space_iff. lia. }
  destruct (is_space c), (is_space (upper c)), (is_space (lower c)); auto;
    simpl; symmetry; auto.
Qed.

Lemma member_i_word c : member_i Word c = Pii.word_char c.
Proof.
  unfold member_i, upper, lower, Pii.word_char, Pii.letter, Pii.digit, in_range.
  simpl. unfold in_range.
  destruct ((97 <=? c)%N && (c <=? 122)%N) eqn:E1,
           ((65 <=? c)%N && (c <=? 90)%N) eqn:E2; lia.
Qed.

Lemma member_i_a_z c : member_i (Range 97 122) c = Pii.letter c.
Proof.
  unfold member_i, upper, lower, Pii.letter, in_range. simpl. unfold in_range.
  destruct ((97 <=? c)%N && (c <=? 122)%N) eqn:E1,
           ((65 <=? c)%N && (c <=? 90)%N) eqn:E2; lia.
Qed.

(** A character that is not a letter matches itself only. *)
Lemma member_i_other k c :
  Pii.letter k = false -> member_i (Chr k) c = (c =? k)%N.
Proof.
  unfold member_i, upper, lower, Pii.letter, in_range. simpl.
  destruct ((97 <=? c)%N && (c <=? 122)%N) eqn:E1,
           ((65 <=? c)%N && (c <=? 90)%N) eqn:E2; lia.
Qed.

(** A lower-case letter matches either case. *)
Lemma member_i_lower k c :
  in_range 97 122 k = true ->
  member_i (Chr k) c = true <-> (c = k \/ c = k - 32)%N.
Proof.
  unfold member_i, upper, lower, in_range. simpl.
  destruct ((97 <=? c)%N && (c <=? 122)%N) eqn:E1,
           ((65 <=? c)%N && (c <=? 90)%N) eqn:E2; lia.
Qed.

(** [member_i] is membership up to the canonical form. *)
Lemma member_i_canonical cs c :
  member_i cs c = true <->
  exists a, member cs a = true /\ canonicalize a = canonicalize c.
Proof.
  unfold member_i, canonicalize. split.
  - rewrite !orb_true_iff. intros [[H|H]|H].
    + eauto.
    + exists (upper c). split; auto. unfold upper, in_range. split_ifs; lia.
    + exists (lower c). split; auto. unfold upper, lower, in_range.
      split_ifs; lia.
  - intros (a & Ha & E).
    assert (a = c \/ a = upper c \/ a = lower c) as [->|[->| ->]].
    { revert E. unfold upper, lower, in_range. split_ifs; lia. }
    all: rewrite Ha, ?orb_true_r; reflexivity.
Qed.

End Sets.

(** ** The matcher finds exactly the words the pattern denotes *)

Section Matcher.

Import JS RegExp.

Variable ok : N -> bool.

Lemma repeat_matcher_sound : forall s min max k,
  repeat_matcher ok min max s k = true ->
  exists w s', s = w ++ s' /\ Forall (fun c => ok c = true) w
               /\ min <= List.length w /\ within max (List.length w)
               /\ k s' = true.
Proof.
  induction s as [|c s IH]; intros min max k H; simpl in H.
  - apply andb_true_iff in H as [H0 Hk]. apply Nat.eqb_eq in H0. subst min.
    exists [], []. repeat split; auto. destruct max; simpl; lia.
  - apply orb_true_iff in H as [H|H].
    + apply andb_true_iff in H as [H Hr]. apply andb_true_iff in H as [Hm Hc].
      apply IH in Hr as (w & s' & -> & Hw & Hmin & Hmax & Hk).
      exists (c :: w), s'. repeat split; auto.
      * simpl. lia.
      * destruct max as [[|m]|]; simpl in *; try discriminate; lia.
    + apply andb_true_iff in H as [H0 Hk]. apply Nat.eqb_eq in H0. subst min.
      exists [], (c :: s). repeat split; auto. destruct max; simpl; lia.
Qed.

Lemma repeat_matcher_complete : forall w s' min max k,
  Forall (fun c => ok c = true) w ->
  min <= List.length w -> within max (List.length w) -> k s' = true ->
  repeat_matcher ok min max (w ++ s') k = true.
Proof.
  induction w as [|c w IH]; intros s' min max k Hw Hmin Hmax Hk.
  - simpl in *. assert (min = 0) by lia. subst min.
    destruct s'; simpl; rewrite Hk; auto using orb_true_r.
  - inversion Hw as [|? ? Hc Hw']; subst. simpl.
    apply orb_true_iff. left.
    rewrite Hc, andb_true_r. apply andb_true_iff. split.
    + destruct max as [[|m]|]; simpl in *; auto; lia.
    + apply IH; auto.
      * simpl in Hmin. lia.
      * destruct max as [m|]; simpl in *; auto; lia.
Qed.

End Matcher.

Section MatcherSpec.

Import JS RegExp.

Variable icase : bool.

Lemma matcher_spec : forall r s k,
  matcher icase r s k = true <->
  exists w s', s = w ++ s' /\ denotes (membership icase) r w /\ k s' = true.
Proof.
  induction r as [cs|cs min max|r1 IH1 r2 IH2|r1 IH1 r2 IH2]; intros s k; simpl.
  - split.
    + destruct s as [|c s]; [discriminate|]. intros H.
      apply andb_true_iff in H as [Hc Hk].
      exists [c], s. repeat split; eauto.
    + intros (w & s' & -> & (c & -> & Hc) & Hk). simpl. now rewrite Hc, Hk.
  - split.
    + intros H. apply repeat_matcher_sound in H as (w & s' & ? & ? & ? & ? & ?).
      exists w, s'. auto.
    + intros (w & s' & -> & (Hw & Hmin & Hmax) & Hk).
      now apply repeat_matcher_complete.
  - rewrite IH1. split.
    + intros (w1 & s1 & -> & D1 & H2). apply IH2 in H2 as (w2 & s2 & -> & D2 & Hk).
      exists (w1 ++ w2), s2. rewrite <- app_assoc. repeat split; eauto.
    + intros (w & s' & -> & (w1 & w2 & -> & D1 & D2) & Hk).
      exists w1, (w2 ++ s'). rewrite <- app_assoc. repeat split; auto.
      apply IH2. eauto.
  - rewrite orb_true_iff, IH1, IH2. split.
    + intros [(w & s' & ? & ? & ?)|(w & s' & ? & ? & ?)]; exists w, s'; auto.
    + intros (w & s' & ? & [D|D] & ?); [left|right]; exists w, s'; auto.
Qed.

(** [test] answers whether some substring is a word of the pattern. *)
Lemma test_spec : forall r s,
  test icase r s = true <->
  exists pre w post, s = pre ++ w ++ post /\ denotes (membership icase) r w.
Proof.
  intros r. induction s as [|c s IH]; simpl; rewrite orb_true_iff, matcher_spec.
  - split.
    + intros [(w & s' & E & D & _)|H]; [|discriminate].
      exists [], w, s'. auto.
    + intros (pre & w & post & E & D). left.
      destruct pre; [|discriminate]. exists w, post. auto.
  - rewrite IH. split.
    + intros [(w & s' & E & D & _)|(pre & w & post & -> & D)].
      * exists [], w, s'. auto.
      * exists (c :: pre), w, post. auto.
    + intros (pre & w & post & E & D). destruct pre as [|c' pre].
      * left. exists w, post. auto.
      * right. simpl in E. injection E as -> ->. eauto.
Qed.

End MatcherSpec.

(** ** The words of [risky] *)

Section Risky.

Import JS RegExp Server.

Local Abbreviation mem := (membership true).

Lemma phone_set c :
  mem (Union Digit (Union Space (Union (Chr 45) (Union (Chr 40) (Chr 41))))) c
  = Pii.phone_char c.
Proof.
  unfold mem, membership. rewrite !member_i_union, member_i_digit, member_i_space.
  rewrite !member_i_other by reflexivity.
  unfold Pii.phone_char. now rewrite !orb_assoc.
Qed.

Lemma local_set c :
  mem (Union Word (Union (Chr 46) (Union (Chr 43) (Chr 45)))) c = Pii.local_char c.
Proof.
  unfold mem, membership. rewrite !member_i_union, member_i_word.
  rewrite !member_i_other by reflexivity.
  unfold Pii.local_char. now rewrite !orb_assoc.
Qed.

Lemma domain_set c : mem (Union Word (Chr 45)) c = Pii.domain_char c.
Proof.
  unfold mem, membership. rewrite !member_i_union, member_i_word.
  now rewrite !member_i_other by reflexivity.
Qed.

Lemma all_ext (p q : N -> bool) w :
  (forall c, p c = q c) -> Forall (fun c => p c = true) w <-> Pii.all q w.
Proof.
  intros E. unfold Pii.all. split; intros H; eapply Forall_impl; try exact H;
    simpl; intros c Hc; [rewrite <- E|rewrite E]; exact Hc.
Qed.

Lemma nonempty_length (w : jsstring) : 1 <= List.length w <-> w <> [].
Proof. destruct w; simpl; split; intros; try lia; congruence. Qed.

Lemma phone_words w :
  denotes mem phone w <->
  exists plus rest, w = plus ++ rest /\ (plus = [] \/ plus = [43%N])
                    /\ Pii.phone_like rest.
Proof.
  unfold phone, Opt, AtLeast, Pii.phone_like. simpl. split.
  - intros (plus & w2 & -> & (Hp & _ & Hlen) & (w3 & run & -> & (d & -> & Hd)
            & Hrun & Hmin & _)).
    exists plus, ([d] ++ run). repeat split.
    + destruct plus as [|p [|? ?]]; simpl in Hlen; try lia; auto.
      right. inversion Hp as [|? ? Hc _]; subst.
      unfold mem, membership in Hc. rewrite member_i_other in Hc by reflexivity.
      f_equal. lia.
    + exists d, run. repeat split; auto.
      * unfold mem, membership in Hd. now rewrite member_i_digit in Hd.
      * eapply all_ext; [|exact Hrun]. intros; symmetry; apply phone_set.
  - intros (plus & rest & -> & Hp & (d & run & -> & Hd & Hmin & Hrun)).
    exists plus, (d :: run). split; [reflexivity|]. split; [split|].
    + destruct Hp as [->| ->]; repeat constructor.
    + destruct Hp as [->| ->]; simpl; lia.
    + exists [d], run. split; [reflexivity|]. split; [|split; [|auto]].
      * exists d. split; auto. unfold mem, membership.
        now rewrite member_i_digit.
      * eapply all_ext; [|exact Hrun]. apply phone_set.
Qed.

Lemma email_words w : denotes mem email w <-> Pii.email_like w.
Proof.
  unfold email, Plus, AtLeast, Pii.email_like. simpl. split.
  - intros (loc & w2 & -> & (Hloc & Hl1 & _) & (w3 & w4 & -> & (at_ & -> & Hat)
            & (dom & w5 & -> & (Hdom & Hd1 & _) & (w6 & tld & -> & (dot & -> & Hdot)
            & (Htld & Ht2 & _))))).
    unfold mem, membership in Hat, Hdot.
    rewrite member_i_other in Hat, Hdot by reflexivity.
    assert (at_ = 64%N) by lia. assert (dot = 46%N) by lia. subst.
    exists loc, dom, tld. repeat split; auto.
    + now apply nonempty_length.
    + eapply all_ext; [|exact Hloc]. intros; symmetry; apply local_set.
    + now apply nonempty_length.
    + eapply all_ext; [|exact Hdom]. intros; symmetry; apply domain_set.
    + eapply all_ext; [|exact Htld]. intros; symmetry; apply member_i_a_z.
  - intros (loc & dom & tld & -> & Hl & Hloc & Hd & Hdom & Ht & Htld).
    exists loc, (64%N :: dom ++ 46%N :: tld). repeat split; auto.
    + eapply all_ext; [|exact Hloc]. apply local_set.
    + now apply nonempty_length.
    + exists [64%N], (dom ++ 46%N :: tld). repeat split; auto.
      * exists 64%N. split; auto.
      * exists dom, (46%N :: tld). repeat split; auto.
        -- eapply all_ext; [|exact Hdom]. apply domain_set.
        -- now apply nonempty_length.
        -- exists [46%N], tld. repeat split; auto.
           ++ exists 46%N. split; auto.
           ++ eapply all_ext; [|exact Htld]. apply member_i_a_z.
Qed.

Lemma invite_words w : denotes mem invite w <-> Pii.invite_link w.
Proof.
  unfold invite, Pii.invite_link. simpl. split.
  - intros (w1 & r1 & -> & (t & -> & Ht) & (w2 & r2 & -> & (dot & -> & Hdot)
            & (w3 & r3 & -> & (m & -> & Hm) & (w4 & w5 & -> & (e & -> & He)
            & (sl & -> & Hsl))))).
    unfold mem, membership in *.
    rewrite member_i_other in Hdot, Hsl by reflexivity.
    apply member_i_lower in Ht, Hm, He; try reflexivity.
    assert (dot = 46%N) by lia. assert (sl = 47%N) by lia. subst.
    exists t, m, e. simpl in *. repeat split; auto; lia.
  - intros (t & m & e & -> & Ht & Hm & He).
    assert (mem (Chr 116) t = true /\ mem (Chr 109) m = true
            /\ mem (Chr 101) e = true) as (Mt & Mm & Me).
    { unfold mem, membership. rewrite !member_i_lower by reflexivity.
      simpl. lia. }
    exists [t], [46; m; e; 47]%N. repeat split; eauto.
    exists [46%N], [m; e; 47%N]. repeat split; eauto.
    exists [m], [e; 47%N]. repeat split; eauto.
    exists [e], [47%N]. repeat split; eauto.
Qed.

(** What [risky.test] answers, in terms of the text alone. *)
Lemma risky_test_spec s :
  risky_test s = true <->
  Pii.contains Pii.phone_like s \/ Pii.contains Pii.email_like s
  \/ Pii.contains Pii.invite_link s.
Proof.
  unfold risky_test. rewrite test_spec. fold mem. unfold Pii.contains. split.
  - intros (pre & w & post & -> & [H|[H|H]]).
    + apply phone_words in H as (plus & rest & -> & _ & H). left.
      exists (pre ++ plus), rest, post. split; auto.
      now rewrite <- !app_assoc.
    + apply email_words in H. right. left. eauto.
    + apply invite_words in H. right. right. eauto.
  - intros [H|[H|H]]; destruct H as (pre & w & post & -> & H);
      exists pre, w, post; split; auto; simpl.
    + left. apply phone_words. exists [], w. auto.
    + right. left. now apply email_words.
    + right. right. now apply invite_words.
Qed.

End Risky.

(** ** SHA-256 on known digests *)

Example sha_abc :
  Sha256.digest_hex (JS.lit "abc")
  = JS.lit "ba7816bf8f01cfea414140de5dae2223b00361a396177a9cb410ff61f20015ad".
Proof. vm_compute. reflexivity. Qed.

Example sha_empty :
  Sha256.digest_hex (JS.lit "")
  = JS.lit "e3b0c44298fc1c149afbf4c8996fb92427ae41e4649b934ca495991b7852b855".
Proof. vm_compute. reflexivity. Qed.

Example sha_ip :
  Sha256.digest_hex (JS.lit "127.0.0.1")
  = JS.lit "12ca17b49af2289436f303e0166030a21e525d266e209267433801a8fd4071a0".
Proof. vm_compute. reflexivity. Qed.

(** Seventy times [a]: two blocks. *)
Example sha_two_blocks :
  Sha256.digest_hex (repeat 97%N 70)
  = JS.lit "6bd5e5034855a11241f0dee8fc72850ffd9955b28347a86428b5fa19119f6ad0".
Proof. vm_compute. reflexivity. Qed.

(** U+00E9 is hashed as its two UTF-8 bytes. *)
Example sha_utf8 :
  Sha256.digest_hex [233%N]
  = JS.lit "4a99557e4033c3539de2eb65472017cad5f9557f7a0625a09f1c3f6e2ba69c4c".
Proof. vm_compute. reflexivity. Qed.


(** ** JavaScript helpers *)

Section Helpers.

Import JS.

Lemma eqb_eq (s t : jsstring) : eqb s t = true <-> s = t.
Proof. unfold eqb. destruct (list_eq_dec N.eq_dec s t); split; congruence. Qed.

Lemma eqb_refl (s : jsstring) : eqb s s = true.
Proof. now apply eqb_eq. Qed.

(** On a string, [(v || '').toString()] is the string. *)
Lemma coerce_string (s : jsstring) : toString (or_else (Str s) (Str [])) = Return s.
Proof. destruct s; reflexivity. Qed.

(** A falsy value is coerced to the empty string. *)
Lemma coerce_falsy (v : value) :
  truthy v = false -> toString (or_else v (Str [])) = Return [].
Proof. unfold or_else. now intros ->. Qed.

Lemma coerce_truthy (v : value) :
  truthy v = true -> toString (or_else v (Str [])) = toString v.
Proof. unfold or_else. now intros ->. Qed.

End Helpers.

(** ** The submit handler *)

Section Submit.

Import JS Mongo Server Claims.

Variable e : env.
Variable c : collection.
Variable req : request.

(** The four ways out of the handler once the collection is there and the
    text is coerced. *)
Lemma submit_cases raw :
  getCollection e = Return tt ->
  coerced req = Return raw ->
  submit e c req =
    if (List.length (trim raw) <? 10) || (2000 <? List.length (trim raw))
    then (InvalidLength, c)
    else if risky_test (trim raw) then (PiiDetected, c)
    else match insertedId e with
         | Return id =>
             (Text 201 (ObjectId_toString id),
              c ++ [{| _id := id; fields := built e req (trim raw) |}])
         | Throw => (DbError, c)
         end.
Proof.
  intros Hc Hraw. unfold coerced in Hraw. unfold submit, submit_try.
  rewrite Hc. simpl. rewrite Hraw. simpl.
  destruct ((List.length (trim raw) <? 10) || (2000 <? List.length (trim raw)));
    [reflexivity|].
  destruct (risky_test (trim raw)); [reflexivity|].
  unfold insertOne. destruct (insertedId e); reflexivity.
Qed.

Lemma submit_no_collection :
  getCollection e = Throw -> submit e c req = (DbError, c).
Proof. intros H. unfold submit, submit_try. now rewrite H. Qed.

Lemma submit_coercion_throws :
  coerced req = Throw -> submit e c req = (DbError, c).
Proof.
  intros H. unfold coerced in H. unfold submit, submit_try.
  destruct (getCollection e); simpl; [|reflexivity]. now rewrite H.
Qed.

(** Whatever the request, either it is refused and the collection is left
    as it was, or it is answered 201 with the new id and the collection has
    one more document, the one the handler built. *)
Lemma submit_outcomes :
  (accepted (fst (submit e c req)) = false /\ snd (submit e c req) = c)
  \/ exists id raw,
       getCollection e = Return tt
       /\ coerced req = Return raw
       /\ insertedId e = Return id
       /\ submit e c req =
            (Text 201 (ObjectId_toString id),
             c ++ [{| _id := id; fields := built e req (trim raw) |}]).
Proof.
  destruct (getCollection e) as [[]|] eqn:Hc.
  2: { left. now rewrite submit_no_collection. }
  destruct (coerced req) as [raw|] eqn:Hraw.
  2: { left. now rewrite submit_coercion_throws. }
  rewrite (submit_cases Hc Hraw).
  destruct ((List.length (trim raw) <? 10) || (2000 <? List.length (trim raw)));
    [now left|].
  destruct (risky_test (trim raw)); [now left|].
  destruct (insertedId e) as [id|]; [|now left].
  right. exists id, raw. auto.
Qed.

End Submit.

(** ** Sorting queries *)

Section OrderByFacts.

Import Query.

Variable A : Type.
Variable key : A -> Z.

Lemma insert_desc_perm a l : Permutation (a :: l) (insert_desc key a l).
Proof.
  induction l as [|b l IH]; simpl; [reflexivity|].
  destruct (key b <? key a)%Z; [reflexivity|].
  rewrite perm_swap. now constructor.
Qed.

Lemma sort_desc_perm l : Permutation l (sort_desc key l).
Proof.
  induction l as [|a l IH]; simpl; [constructor|].
  rewrite <- insert_desc_perm. now constructor.
Qed.

Lemma insert_desc_sorted a l :
  StronglySorted (desc key) l -> StronglySorted (desc key) (insert_desc key a l).
Proof.
  induction 1 as [|b l Hl IH Hb]; simpl.
  - repeat constructor.
  - destruct (key b <? key a)%Z eqn:E.
    + constructor; [now constructor|]. constructor; [unfold desc; lia|].
      eapply Forall_impl; [|exact Hb]. unfold desc. simpl. intros; lia.
    + constructor; [exact IH|].
      rewrite <- insert_desc_perm. constructor; [unfold desc; lia|exact Hb].
Qed.

Lemma sort_desc_sorted l : StronglySorted (desc key) (sort_desc key l).
Proof.
  induction l as [|a l IH]; simpl; [constructor|]. now apply insert_desc_sorted.
Qed.

(** The query always has an answer. *)
Lemma order_by_desc_total rows : order_by_desc key rows (sort_desc key rows).
Proof. split; [apply sort_desc_perm|apply sort_desc_sorted]. Qed.

Lemma Forall_firstn (P : A -> Prop) n l : Forall P l -> Forall P (firstn n l).
Proof.
  intros H. revert n. induction H; intros [|n]; simpl; constructor; auto.
Qed.

Lemma sorted_firstn (R : A -> A -> Prop) n l :
  StronglySorted R l -> StronglySorted R (firstn n l).
Proof.
  intros H. revert n. induction H as [|a l Hl IH Ha]; intros [|n]; simpl;
    constructor; auto using Forall_firstn.
Qed.

Lemma sorted_map (B : Type) (f : A -> B) (R : A -> A -> Prop) (S : B -> B -> Prop) l :
  (forall a b, R a b -> S (f a) (f b)) ->
  StronglySorted R l -> StronglySorted S (map f l).
Proof.
  intros HRS. induction 1 as [|a l Hl IH Ha]; simpl; constructor; auto.
  apply Forall_map. eapply Forall_impl; [|exact Ha]. auto.
Qed.

(** Rows related one by one by a relation that keeps the key have related
    answers. *)
Lemma order_by_desc_related (R : A -> A -> Prop) rows1 rows2 sorted1 :
  (forall a b, R a b -> key a = key b) ->
  Forall2 R rows1 rows2 ->
  order_by_desc key rows1 sorted1 ->
  exists sorted2, order_by_desc key rows2 sorted2 /\ Forall2 R sorted1 sorted2.
Proof.
  intros Hkey HR [Hperm Hsorted].
  destruct (Permutation_Forall2 Hperm HR) as (sorted2 & Hperm2 & HR2).
  exists sorted2. split; [split; [exact Hperm2|]|exact HR2].
  clear Hperm Hperm2 HR. induction HR2 as [|a b l1 l2 Hab HR2 IH].
  - constructor.
  - inversion Hsorted as [|? ? Hl Ha]; subst. constructor; [auto|].
    clear IH Hl Hsorted. induction HR2 as [|a' b' l1' l2' Hab' _ IH'].
    + constructor.
    + inversion Ha; subst. constructor; [|auto].
      unfold desc in *. rewrite <- (Hkey _ _ Hab), <- (Hkey _ _ Hab'). assumption.
Qed.

Lemma Forall2_firstn (R : A -> A -> Prop) n l1 l2 :
  Forall2 R l1 l2 -> Forall2 R (firstn n l1) (firstn n l2).
Proof.
  intros H. revert n. induction H; intros [|n]; simpl; constructor; auto.
Qed.

Lemma map_related (B : Type) (f : A -> B) (R : A -> A -> Prop) l1 l2 :
  (forall a b, R a b -> f a = f b) -> Forall2 R l1 l2 -> map f l1 = map f l2.
Proof.
  intros Hf. induction 1; simpl; [reflexivity|]. f_equal; auto.
Qed.

End OrderByFacts.

(** ** The hex digest *)

Section Hex.

Import JS Sha256 Claims.

Lemma hex_length n x : List.length (hex n x) = n.
Proof.
  revert x. induction n as [|n IH]; intros x; simpl; [reflexivity|].
  rewrite length_app, IH. simpl. lia.
Qed.

Lemma hex_digit_char d : (d < 16)%N -> hex_char (hex_digit d) = true.
Proof. unfold hex_char, hex_digit, in_range. intros H. destruct (d <? 10)%N eqn:E; lia. Qed.

Lemma hex_chars n x : Forall (fun c => hex_char c = true) (hex n x).
Proof.
  revert x. induction n as [|n IH]; intros x; simpl; [constructor|].
  apply Forall_app. split; [apply IH|]. constructor; [|constructor].
  apply hex_digit_char. apply N.mod_lt. discriminate.
Qed.

Lemma digest_hex_length s : List.length (digest_hex s) = 64.
Proof. unfold digest_hex. now rewrite !length_app, !hex_length. Qed.

Lemma digest_hex_chars s : Forall (fun c => hex_char c = true) (digest_hex s).
Proof. unfold digest_hex. rewrite !Forall_app. repeat split; apply hex_chars. Qed.

End Hex.

(** ** The model on concrete inputs *)

Section Runs.

Import JS Mongo Server.

(** [trim] strips a no-break space and a line feed as well. *)
Example trim_run : trim (160 :: lit "  odd  " ++ [10])%N = lit "odd".
Proof. reflexivity. Qed.

(** [["a", null, [true, {}]].toString()] *)
Example toString_array :
  toString (Arr [Str (lit "a"); Null; Arr [Bool true; Obj []]])
  = Return (lit "a,,true,[object Object]").
Proof. reflexivity. Qed.

Example toString_not_callable :
  toString (Obj [(lit "toString", Num {| falsy := false; decimal := lit "1" |})]) = Throw.
Proof. reflexivity. Qed.

Example risky_runs :
  map (fun s => risky_test (lit s))
      ["Contact me at john@example.com please"; "Saw something odd downtown today";
       "call +7 (900) 123-45-67"; "call 123456789"; "call 12345678";
       "join T.ME/somechat"; "mail a@b.c now"; "MAIL A@B.CO NOW"]%string
  = [true; false; true; true; false; true; false; true].
Proof. vm_compute. reflexivity. Qed.

(** The second example of the specification: accepted, stored [pending]. *)
Example downtown_run :
  submit Samples.up [] (Samples.post (Str Samples.downtown))
  = (Text 201 (lit "65f1a2b3c4d5e6f708192a3b"),
     [{| _id := Samples.new_id;
         fields := {| text := Samples.downtown;
                      lang := lit "ru";
                      status := lit "pending";
                      created_at := 1700000000000%Z;
                      ip_hash := Some (lit "12ca17b49af22894");
                      ua := lit "Mozilla/5.0" |} |}]).
Proof. vm_compute. reflexivity. Qed.

(** The first entry of [x-forwarded-for] wins over the socket address. *)
Example proxied_ip :
  client_ip (Samples.proxied Null) = lit "203.0.113.7".
Proof. reflexivity. Qed.

(** The handler tests the trimmed text: separators that end the raw text
    are gone before [risky] sees it. *)
Example trailing_separators_are_trimmed :
  risky_test (lit "Meet me at gate 7        ") = true
  /\ risky_test (trim (lit "Meet me at gate 7        ")) = false
  /\ Claims.accepted
       (fst (submit Samples.up [] (Samples.post (Str (lit "Meet me at gate 7        ")))))
     = true.
Proof. vm_compute. auto. Qed.

End Runs.

(* ===================================================================== *)
(** * The claims of the specification *)
(* ===================================================================== *)

Section Intake.

Import JS Mongo Server Claims.

Lemma PiiDetected_not_InvalidLength : PiiDetected <> InvalidLength.
Proof. intros H. vm_compute in H. discriminate H. Qed.

Lemma DbError_not_InvalidLength : DbError <> InvalidLength.
Proof. intros H. vm_compute in H. discriminate H. Qed.

Lemma length_test (text : jsstring) :
  (List.length text <? 10) || (2000 <? List.length text) = true
  <-> ~ valid_length text.
Proof. unfold valid_length. lia. Qed.

End Intake.

(** C1.  Once the collection is reachable and the text is coerced to a
    string, the handler answers [Invalid length] exactly when the trimmed
    text is shorter than 10 or longer than 2000 code units; it does so
    whether or not the text matches [risky], and leaves the collection as it
    was. *)
Theorem invalid_length_decides_first
    (e : Mongo.env) (c : Mongo.collection) (req : Server.request) (raw : JS.jsstring) :
  Mongo.getCollection e = JS.Return tt ->
  Claims.coerced req = JS.Return raw ->
  (fst (Server.submit e c req) = Server.InvalidLength
   <-> (List.length (JS.trim raw) < 10 \/ 2000 < List.length (JS.trim raw)))
  /\ (forall pii : bool,
        Server.risky_test (JS.trim raw) = pii ->
        List.length (JS.trim raw) < 10 \/ 2000 < List.length (JS.trim raw) ->
        Server.submit e c req = (Server.InvalidLength, c)).
Proof.
  intros Hc Hraw. rewrite (@submit_cases e c req raw Hc Hraw).
  destruct ((List.length (JS.trim raw) <? 10) || (2000 <? List.length (JS.trim raw)))
    eqn:Hlen.
  - split; [|reflexivity]. split; [|reflexivity]. intros _. lia.
  - split.
    + split; [|lia]. intros H. exfalso.
      destruct (Server.risky_test (JS.trim raw)).
      * now apply PiiDetected_not_InvalidLength.
      * destruct (Mongo.insertedId e); simpl in H.
        -- discriminate H.
        -- now apply DbError_not_InvalidLength.
    + intros pii _ H. lia.
Qed.

(** A text that is too short and looks like an e-mail address is refused for
    its length. *)
Lemma invalid_length_decides_first_witness :
  Mongo.getCollection Samples.up = JS.Return tt
  /\ Claims.coerced (Samples.post (JS.Str (JS.lit "a@b.co"))) = JS.Return (JS.lit "a@b.co")
  /\ Server.risky_test (JS.trim (JS.lit "a@b.co")) = true
  /\ Server.submit Samples.up [] (Samples.post (JS.Str (JS.lit "a@b.co")))
     = (Server.InvalidLength, []).
Proof.
  split; [reflexivity|]. split; [reflexivity|]. split; [reflexivity|].
  apply (proj2 (@invalid_length_decides_first Samples.up []
                  (Samples.post (JS.Str (JS.lit "a@b.co"))) (JS.lit "a@b.co")
                  eq_refl eq_refl) true).
  - reflexivity.
  - left. vm_compute. lia.
Defined.



Section Counting.

Import JS.

Lemma digits_app (u v : jsstring) : Pii.digits (u ++ v) = Pii.digits u + Pii.digits v.
Proof. unfold Pii.digits. now rewrite filter_app, length_app. Qed.

Lemma contains_char (P : jsstring -> Prop) (k : N) (s : jsstring) :
  (forall w, P w -> In k w) -> Pii.contains P s -> In k s.
Proof.
  intros HP (pre & w & post & -> & Hw).
  apply in_or_app. right. apply in_or_app. left. auto.
Qed.

Lemma email_has_at w : Pii.email_like w -> In 64%N w.
Proof.
  intros (loc & dom & tld & -> & _). apply in_or_app. right. now left.
Qed.

Lemma invite_has_slash w : Pii.invite_link w -> In 47%N w.
Proof. intros (t & m & e & -> & _). simpl. tauto. Qed.

Lemma phone_like_bounds w :
  Pii.phone_like w -> 9 <= List.length w /\ 1 <= Pii.digits w.
Proof.
  intros (d & run & -> & Hd & Hlen & _). split; [simpl; lia|].
  unfold Pii.digits. simpl. rewrite Hd. simpl. lia.
Qed.

End Counting.

(** C2, as the specification has it, fails: a text with eight digits only,
    no e-mail address and no invite link is flagged, by the phone
    alternative of [risky]. *)
Lemma nine_digits_counterexample :
  Server.risky_test Samples.years = true
  /\ RegExp.test true Server.phone Samples.years = true
  /\ Pii.digits Samples.years = 8
  /\ ~ (Pii.contains Pii.nine_digits Samples.years
        \/ Pii.contains Pii.email_like Samples.years
        \/ Pii.contains Pii.invite_link Samples.years).
Proof.
  split; [reflexivity|]. split; [reflexivity|]. split; [reflexivity|].
  intros [H|[H|H]].
  - destruct H as (pre & w & post & E & _ & H9).
    assert (D : Pii.digits Samples.years = 8) by reflexivity.
    rewrite E, !digits_app in D. lia.
  - apply (contains_char 64%N) in H; [|exact email_has_at].
    vm_compute in H. repeat (destruct H as [H|H]; [discriminate H|]). exact H.
  - apply (contains_char 47%N) in H; [|exact invite_has_slash].
    vm_compute in H. repeat (destruct H as [H|H]; [discriminate H|]). exact H.
Qed.

(** C2, amended.  [risky.test(text)] is true exactly when the text contains
    a digit followed by eight or more characters that are digits, white
    space, hyphens or parentheses, or a token [local@domain.tld] whose TLD
    has two or more letters, or [t.me/]; letters match in either case.  A
    phone-like run so flagged has nine or more characters and one or more
    digits. *)
Theorem abuse_filter_matches (text : JS.jsstring) :
  (Server.risky_test text = true
   <-> Pii.contains Pii.phone_like text
       \/ Pii.contains Pii.email_like text
       \/ Pii.contains Pii.invite_link text)
  /\ (forall w, Pii.phone_like w -> 9 <= List.length w /\ 1 <= Pii.digits w).
Proof. split; [apply risky_test_spec|exact phone_like_bounds]. Qed.

Lemma abuse_filter_matches_witness :
  Pii.contains Pii.phone_like Samples.years
  /\ Server.risky_test Samples.years = true.
Proof.
  assert (H : Pii.contains Pii.phone_like Samples.years).
  { exists (JS.lit "We lived there "), (JS.lit "1999 - 2004"), (JS.lit ", good times").
    split; [reflexivity|].
    exists 49%N, (JS.lit "999 - 2004"). split; [reflexivity|].
    split; [reflexivity|]. split; [vm_compute; lia|].
    unfold Pii.all. repeat constructor. }
  split; [exact H|].
  apply (proj2 (proj1 (abuse_filter_matches Samples.years))). left. exact H.
Defined.

(** C4, as the specification has it, fails on the SQLite table: a row that
    is in order but for its status [published] breaks the CHECK on
    [status]. *)
Lemma published_counterexample :
  Db.check_in (Db.lang Samples.published_row) [JS.lit "en"; JS.lit "ru"] = true
  /\ Db.admits Samples.published_row = false
  /\ ~ (exists r, Db.status r = JS.lit "published" /\ Db.admits r = true).
Proof.
  split; [reflexivity|]. split; [reflexivity|].
  intros (r & Hs & Ha). unfold Db.admits in Ha. rewrite Hs in Ha.
  apply andb_true_iff in Ha as [_ Ha]. vm_compute in Ha. discriminate Ha.
Qed.

Section Constraints.

Import JS Db.

(** What the CHECK constraints amount to. *)
Lemma admits_iff (r : row) :
  admits r = true
  <-> Claims.lang_ok (lang r)
      /\ (status r = lit "pending" \/ status r = lit "approved"
          \/ status r = lit "rejected").
Proof.
  unfold admits, check_in, Claims.lang_ok. simpl.
  rewrite andb_true_iff, !orb_true_iff, !eqb_eq. intuition discriminate.
Qed.

End Constraints.

(** C4, amended.  The SQLite table admits a row exactly when its [lang] is
    [en] or [ru] and its [status] is [pending], [approved] or [rejected];
    [published] is refused.  The MongoDB collection of [server.js] puts no
    condition on [status]: [insertOne] stores any document once the driver
    gives it an id. *)
Theorem store_admits_three_statuses :
  (forall r : Db.row,
     Db.admits r = true
     <-> Claims.lang_ok (Db.lang r)
         /\ (Db.status r = JS.lit "pending" \/ Db.status r = JS.lit "approved"
             \/ Db.status r = JS.lit "rejected"))
  /\ (forall (e : Mongo.env) (c : Mongo.collection) (d : Mongo.doc) (id : Mongo.ObjectId),
        Mongo.insertedId e = JS.Return id ->
        Mongo.insertOne e c d
        = JS.Return (id, c ++ [{| Mongo._id := id; Mongo.fields := d |}])).
Proof.
  split.
  - exact admits_iff.
  - intros e c d id H. unfold Mongo.insertOne. now rewrite H.
Qed.

Lemma store_admits_three_statuses_witness :
  Mongo.insertedId Samples.up = JS.Return Samples.new_id
  /\ Mongo.insertOne Samples.up [] (Mongo.fields Samples.first_note)
     = JS.Return (Samples.new_id,
                  [{| Mongo._id := Samples.new_id;
                      Mongo.fields := Mongo.fields Samples.first_note |}]).
Proof.
  split; [reflexivity|].
  exact (proj2 store_admits_three_statuses Samples.up []
           (Mongo.fields Samples.first_note) _ eq_refl).
Defined.

Section Insertion.

Import JS Db.

Lemma insertSubmission_inserts now t p id t' :
  insertSubmission now t p = Return (id, t') ->
  exists r,
    rows t' = rows t ++ [r]
    /\ Db.id r = id /\ status r = lit "pending" /\ created_at r = now
    /\ p_text p = Some (text r) /\ p_lang p = Some (lang r)
    /\ admits r = true.
Proof.
  unfold insertSubmission, insertStmt_run.
  destruct (p_text p) as [text|]; [|discriminate].
  destruct (p_lang p) as [lang|]; [|discriminate].
  destruct (admits _) eqn:Ha; [|discriminate].
  intros H. injection H as <- <-. eexists. simpl. repeat split. exact Ha.
Qed.

End Insertion.

(** C5.  A submission the handler accepts is appended with status
    [pending] and the [created_at] read at that moment; every request
    leaves the collection as it was or appends such a document; and the
    INSERT of [db.js] gives its row the defaults [pending] and
    [datetime('now')]. *)
Theorem accepted_starts_pending :
  (forall (e : Mongo.env) (c : Mongo.collection) (req : Server.request),
     Claims.accepted (fst (Server.submit e c req)) = true ->
     exists id d,
       snd (Server.submit e c req) = c ++ [{| Mongo._id := id; Mongo.fields := d |}]
       /\ Mongo.status d = JS.lit "pending" /\ Mongo.created_at d = Mongo.now e)
  /\ (forall (e : Mongo.env) (c : Mongo.collection) (req : Server.request),
        snd (Server.submit e c req) = c
        \/ exists id d,
             snd (Server.submit e c req) = c ++ [{| Mongo._id := id; Mongo.fields := d |}]
             /\ Mongo.status d = JS.lit "pending" /\ Mongo.created_at d = Mongo.now e)
  /\ (forall (now : Z) (t : Db.table) (p : Db.payload) (id : Z) (t' : Db.table),
        Db.insertSubmission now t p = JS.Return (id, t') ->
        exists r,
          Db.rows t' = Db.rows t ++ [r]
          /\ Db.status r = JS.lit "pending" /\ Db.created_at r = now).
Proof.
  split; [|split].
  - intros e c req Hacc.
    destruct (submit_outcomes e c req) as [[H _]|(id & raw & _ & _ & _ & H)].
    + congruence.
    + rewrite H. simpl. eauto.
  - intros e c req.
    destruct (submit_outcomes e c req) as [[_ H]|(id & raw & _ & _ & _ & H)].
    + now left.
    + right. rewrite H. simpl. eauto.
  - intros now t p id t' H.
    apply insertSubmission_inserts in H as (r & ? & ? & ? & ? & _). eauto.
Qed.

Lemma accepted_starts_pending_witness :
  Claims.accepted
    (fst (Server.submit Samples.up [] (Samples.post (JS.Str Samples.downtown)))) = true
  /\ (exists id d,
        snd (Server.submit Samples.up [] (Samples.post (JS.Str Samples.downtown)))
        = [] ++ [{| Mongo._id := id; Mongo.fields := d |}]
        /\ Mongo.status d = JS.lit "pending"
        /\ Mongo.created_at d = Mongo.now Samples.up)
  /\ Db.insertSubmission 1700000000 Samples.empty_table Samples.payload_en
     = JS.Return (1%Z, {| Db.rows := [ {| Db.id := 1; Db.text := Samples.downtown;
                                          Db.lang := JS.lit "en";
                                          Db.status := JS.lit "pending";
                                          Db.ip_hash := None; Db.ua := None;
                                          Db.created_at := 1700000000 |} ];
                          Db.seq := 1 |})
  /\ (exists r,
        [ {| Db.id := 1%Z; Db.text := Samples.downtown; Db.lang := JS.lit "en";
             Db.status := JS.lit "pending"; Db.ip_hash := None; Db.ua := None;
             Db.created_at := 1700000000%Z |} ]
        = Db.rows Samples.empty_table ++ [r]
        /\ Db.status r = JS.lit "pending" /\ Db.created_at r = 1700000000%Z).
Proof.
  assert (A : Claims.accepted
    (fst (Server.submit Samples.up [] (Samples.post (JS.Str Samples.downtown)))) = true)
    by reflexivity.
  split; [exact A|]. split.
  - exact (proj1 accepted_starts_pending Samples.up []
             (Samples.post (JS.Str Samples.downtown)) A).
  - split; [reflexivity|].
    exact (proj2 (proj2 accepted_starts_pending) 1700000000%Z Samples.empty_table
             Samples.payload_en 1%Z _ eq_refl).
Defined.

(** C6.  The fingerprint is null exactly when there is no address: the
    first entry of [x-forwarded-for] is empty once trimmed and the socket
    has no address.  Otherwise it is the first 16 characters of the SHA-256
    hex digest of the address, 16 hex digits; the same address gives the
    same fingerprint. *)
Theorem fingerprint_of_address :
  (forall ip : JS.jsstring, Server.ip_hash_of ip = None <-> ip = [])
  /\ (forall req : Server.request,
        Server.ip_hash_of (Server.client_ip req) = None <-> Claims.no_address req)
  /\ (forall ip : JS.jsstring,
        ip <> [] ->
        exists h,
          Server.ip_hash_of ip = Some h
          /\ h = firstn 16 (Sha256.digest_hex ip)
          /\ List.length h = 16
          /\ Forall (fun c => Claims.hex_char c = true) h)
  /\ (forall ip1 ip2 : JS.jsstring,
        ip1 = ip2 -> Server.ip_hash_of ip1 = Server.ip_hash_of ip2).
Proof.
  assert (N : forall ip, Server.ip_hash_of ip = None <-> ip = []).
  { intros [|a ip]; unfold Server.ip_hash_of; split; intros H; auto; discriminate H. }
  split; [exact N|]. split; [|split].
  - intros req. rewrite N. unfold Server.client_ip, Claims.no_address.
    destruct (JS.trim _) as [|a fwd]; split.
    + auto.
    + now intros [_ H].
    + discriminate.
    + now intros [H _].
  - intros ip Hip. exists (firstn 16 (Sha256.digest_hex ip)). split; [|split; [|split]].
    + destruct ip; [contradiction|reflexivity].
    + reflexivity.
    + rewrite length_firstn, digest_hex_length. reflexivity.
    + apply Forall_firstn, digest_hex_chars.
  - intros ip1 ip2 ->. reflexivity.
Qed.

Lemma fingerprint_of_address_witness :
  JS.lit "127.0.0.1" <> []
  /\ Server.ip_hash_of (Server.client_ip (Samples.post JS.Null))
     = Some (JS.lit "12ca17b49af22894")
  /\ exists h,
       Server.ip_hash_of (JS.lit "127.0.0.1") = Some h
       /\ h = firstn 16 (Sha256.digest_hex (JS.lit "127.0.0.1"))
       /\ List.length h = 16
       /\ Forall (fun c => Claims.hex_char c = true) h.
Proof.
  assert (H : JS.lit "127.0.0.1" <> []) by discriminate.
  split; [exact H|]. split; [vm_compute; reflexivity|].
  exact (proj1 (proj2 (proj2 fingerprint_of_address)) (JS.lit "127.0.0.1") H).
Defined.

Section Lang.

Import JS Mongo Server Claims.

Lemma lang_of_cases req :
  (get (body req) (lit "lang") = Str (lit "ru") /\ lang_of req = lit "ru")
  \/ (get (body req) (lit "lang") <> Str (lit "ru") /\ lang_of req = lit "en").
Proof.
  unfold lang_of, strict_eq_string.
  destruct (get (body req) (lit "lang")) as [| | | |s| |];
    try (right; split; [discriminate|reflexivity]).
  destruct (eqb s (lit "ru")) eqn:E.
  - apply eqb_eq in E. subst. now left.
  - right. split; [|reflexivity]. intros H. injection H as ->.
    now rewrite eqb_refl in E.
Qed.

Lemma lang_of_ok req : lang_ok (lang_of req).
Proof. destruct (lang_of_cases req) as [[_ ->]|[_ ->]]; [now right|now left]. Qed.

End Lang.

(** C8.  The declared language becomes [ru] exactly when it is the string
    ["ru"], and [en] for anything else; so the handler keeps every document
    of the collection at [en] or [ru], and so does the INSERT of [db.js],
    whose CHECK refuses any other language. *)
Theorem lang_is_en_or_ru :
  (forall req : Server.request,
     Server.lang_of req = JS.lit "ru"
     <-> JS.get (Server.body req) (JS.lit "lang") = JS.Str (JS.lit "ru"))
  /\ (forall req : Server.request,
        JS.get (Server.body req) (JS.lit "lang") <> JS.Str (JS.lit "ru") ->
        Server.lang_of req = JS.lit "en")
  /\ (forall (e : Mongo.env) (c : Mongo.collection) (req : Server.request),
        Forall (fun d => Claims.lang_ok (Mongo.lang (Mongo.fields d))) c ->
        Forall (fun d => Claims.lang_ok (Mongo.lang (Mongo.fields d)))
               (snd (Server.submit e c req)))
  /\ (forall (now : Z) (t : Db.table) (p : Db.payload) (id : Z) (t' : Db.table),
        Forall (fun r => Claims.lang_ok (Db.lang r)) (Db.rows t) ->
        Db.insertSubmission now t p = JS.Return (id, t') ->
        Forall (fun r => Claims.lang_ok (Db.lang r)) (Db.rows t')).
Proof.
  split; [|split; [|split]].
  - intros req. destruct (lang_of_cases req) as [[H ->]|[H ->]].
    + tauto.
    + split; [discriminate|contradiction].
  - intros req H. destruct (lang_of_cases req) as [[H' _]|[_ ->]]; [contradiction|reflexivity].
  - intros e c req Hc.
    destruct (submit_outcomes e c req) as [[_ ->]|(id & raw & _ & _ & _ & ->)];
      [exact Hc|].
    simpl. apply Forall_app. split; [exact Hc|].
    constructor; [|constructor]. simpl. apply lang_of_ok.
  - intros now t p id t' Ht H.
    apply insertSubmission_inserts in H as (r & -> & _ & _ & _ & _ & _ & Ha).
    apply Forall_app. split; [exact Ht|]. constructor; [|constructor].
    apply admits_iff in Ha. exact (proj1 Ha).
Qed.

Lemma lang_is_en_or_ru_witness :
  JS.get (Server.body (Samples.post JS.Null)) (JS.lit "lang") = JS.Str (JS.lit "ru")
  /\ Server.lang_of (Samples.post JS.Null) = JS.lit "ru"
  /\ Forall (fun d => Claims.lang_ok (Mongo.lang (Mongo.fields d)))
            (snd (Server.submit Samples.up [Samples.first_note]
                    (Samples.post (JS.Str Samples.downtown)))).
Proof.
  split; [reflexivity|]. split.
  - apply (proj2 (proj1 lang_is_en_or_ru (Samples.post JS.Null))). reflexivity.
  - apply (proj1 (proj2 (proj2 lang_is_en_or_ru))).
    constructor; [|constructor]. left. reflexivity.
Defined.

Section Listing.

Import JS Mongo Server Claims.

Lemma find_sort_limit_project_sorted c n items :
  find_sort_limit_project c n items ->
  newest_first items
  /\ List.length items = Nat.min n (List.length c)
  /\ exists sorted, Permutation c sorted /\ items = map project (firstn n sorted).
Proof.
  intros (sorted & [Hperm Hsorted] & ->). split; [|split].
  - unfold newest_first.
    apply sorted_map with (R := Query.desc (fun d => created_at (fields d))).
    + auto.
    + now apply sorted_firstn.
  - rewrite length_map, length_firstn. now rewrite (Permutation_length Hperm).
  - eauto.
Qed.

Lemma find_sort_limit_project_total c n :
  find_sort_limit_project c n
    (map project (firstn n (Query.sort_desc (fun d => created_at (fields d)) c))).
Proof. eexists. split; [apply order_by_desc_total|reflexivity]. Qed.

Lemma listLatest_sorted t limit out :
  Db.listLatestStmt_all t limit out ->
  newest_first_rows out
  /\ exists sorted, Permutation (Db.rows t) sorted
                    /\ out = map Db.select (Db.limit_rows limit sorted).
Proof.
  intros (sorted & [Hperm Hsorted] & ->). split; [|eauto].
  unfold newest_first_rows.
  apply sorted_map with (R := Query.desc Db.created_at); [auto|].
  unfold Db.limit_rows. destruct (limit <? 0)%Z; [exact Hsorted|].
  now apply sorted_firstn.
Qed.

Lemma listLatest_total t limit :
  Db.listLatestStmt_all t limit
    (map Db.select (Db.limit_rows limit (Query.sort_desc Db.created_at (Db.rows t)))).
Proof. eexists. split; [apply order_by_desc_total|reflexivity]. Qed.

Lemma same_but_identity_sym d1 d2 : same_but_identity d1 d2 -> same_but_identity d2 d1.
Proof. unfold same_but_identity. intuition congruence. Qed.

Lemma same_but_identity_project d1 d2 : same_but_identity d1 d2 -> project d1 = project d2.
Proof.
  unfold same_but_identity, project.
  intros (-> & -> & -> & -> & ->). reflexivity.
Qed.

Lemma Forall2_sym (A : Type) (R : A -> A -> Prop) l1 l2 :
  (forall a b, R a b -> R b a) -> Forall2 R l1 l2 -> Forall2 R l2 l1.
Proof. intros H. induction 1; constructor; auto. Qed.

Lemma find_blind c1 c2 n items :
  Forall2 same_but_identity c1 c2 ->
  find_sort_limit_project c1 n items -> find_sort_limit_project c2 n items.
Proof.
  intros HR (sorted1 & Ho & ->).
  destruct (@order_by_desc_related _ (fun d => created_at (fields d))
              same_but_identity c1 c2 sorted1) as (sorted2 & Ho2 & HR2); auto.
  { intros a b (_ & _ & _ & _ & H). exact H. }
  exists sorted2. split; [exact Ho2|].
  apply map_related with (R := same_but_identity).
  - exact same_but_identity_project.
  - now apply Forall2_firstn.
Qed.

Lemma admin_list_blind e c1 c2 r :
  Forall2 same_but_identity c1 c2 -> admin_list e c1 r -> admin_list e c2 r.
Proof.
  intros HR H. destruct H as [items Hc Ha Hf|H].
  - apply admin_list_items; auto. eapply find_blind; eauto.
  - now apply admin_list_error.
Qed.

Lemma same_row_sym r1 r2 : same_but_identity_row r1 r2 -> same_but_identity_row r2 r1.
Proof. unfold same_but_identity_row. intuition congruence. Qed.

Lemma listLatest_blind t1 t2 limit out :
  Forall2 same_but_identity_row (Db.rows t1) (Db.rows t2) ->
  Db.listLatest t1 limit out -> Db.listLatest t2 limit out.
Proof.
  unfold Db.listLatest. intros HR (sorted1 & Ho & ->).
  destruct (@order_by_desc_related _ Db.created_at
              same_but_identity_row (Db.rows t1) (Db.rows t2) sorted1)
    as (sorted2 & Ho2 & HR2); auto.
  { intros a b (_ & _ & _ & _ & H). exact H. }
  exists sorted2. split; [exact Ho2|].
  apply map_related with (R := same_but_identity_row).
  - unfold same_but_identity_row, Db.select.
    intros a b (-> & -> & -> & -> & ->). reflexivity.
  - unfold Db.limit_rows.
    destruct (_ <? 0)%Z; [exact HR2|]. now apply Forall2_firstn.
Qed.

End Listing.

(** Two documents of the same millisecond are listed in either order. *)
Lemma either_order_is_an_answer :
  Server.admin_list Samples.up [Samples.first_note; Samples.second_note]
    (Server.Json 200 true
       (Some (map Mongo.project [Samples.first_note; Samples.second_note])))
  /\ Server.admin_list Samples.up [Samples.first_note; Samples.second_note]
       (Server.Json 200 true
          (Some (map Mongo.project [Samples.second_note; Samples.first_note]))).
Proof.
  assert (S : forall a b,
             Mongo.created_at (Mongo.fields a) = 1700000000000%Z ->
             Mongo.created_at (Mongo.fields b) = 1700000000000%Z ->
             StronglySorted (Query.desc (fun d => Mongo.created_at (Mongo.fields d))) [a; b]).
  { intros a b Ha Hb. repeat constructor. unfold Query.desc. rewrite Ha, Hb. lia. }
  split.
  - apply Server.admin_list_items; try reflexivity.
    exists [Samples.first_note; Samples.second_note].
    split; [split; [reflexivity|now apply S]|reflexivity].
  - apply Server.admin_list_items; try reflexivity.
    exists [Samples.second_note; Samples.first_note].
    split; [split; [apply perm_swap|now apply S]|reflexivity].
Defined.

(** C7, as the specification has it, fails: two documents with the same
    [created_at] may be listed in either order, so neither tie-break by id
    holds of every answer. *)
Lemma tie_break_counterexample :
  Server.admin_list Samples.up [Samples.first_note; Samples.second_note]
    (Server.Json 200 true
       (Some (map Mongo.project [Samples.first_note; Samples.second_note])))
  /\ Server.admin_list Samples.up [Samples.first_note; Samples.second_note]
       (Server.Json 200 true
          (Some (map Mongo.project [Samples.second_note; Samples.first_note])))
  /\ ~ Claims.newest_first_then_id false
         (map Mongo.project [Samples.first_note; Samples.second_note])
  /\ ~ Claims.newest_first_then_id true
         (map Mongo.project [Samples.second_note; Samples.first_note]).
Proof.
  destruct either_order_is_an_answer as [H1 H2].
  split; [exact H1|]. split; [exact H2|]. split.
  - intros H. inversion H as [|? ? _ F]; subst. inversion F as [|? ? T _]; subst.
    simpl in T. lia.
  - intros H. inversion H as [|? ? _ F]; subst. inversion F as [|? ? T _]; subst.
    simpl in T. lia.
Qed.

(** C7, amended.  The admin listing answers at most 50 documents, and
    [listLatest] at most [limit] rows, newest [created_at] first; the
    answer is a prefix of some rearrangement of the store that is
    descending in [created_at], and the order of records with equal
    [created_at] is left to the engine.  Both queries always have an
    answer. *)
Theorem listings_are_newest_first :
  (forall (e : Mongo.env) (c : Mongo.collection) (items : list Mongo.item),
     Server.admin_list e c (Server.Json 200 true (Some items)) ->
     Claims.newest_first items
     /\ List.length items = Nat.min 50 (List.length c)
     /\ exists sorted,
          Permutation c sorted /\ items = map Mongo.project (firstn 50 sorted))
  /\ (forall (t : Db.table) (limit : Z) (out : list Db.listed),
        Db.listLatest t (Some limit) out ->
        Claims.newest_first_rows out
        /\ exists sorted,
             Permutation (Db.rows t) sorted
             /\ out = map Db.select (Db.limit_rows limit sorted))
  /\ (forall (e : Mongo.env) (c : Mongo.collection),
        Mongo.getCollection e = JS.Return tt ->
        Mongo.toArray e = JS.Return tt ->
        exists items, Server.admin_list e c (Server.Json 200 true (Some items)))
  /\ (forall (t : Db.table) (limit : option Z), exists out, Db.listLatest t limit out).
Proof.
  split; [|split; [|split]].
  - intros e c items H. inversion H as [items' _ _ Hf|]; subst.
    now apply find_sort_limit_project_sorted.
  - intros t limit out H. now apply listLatest_sorted.
  - intros e c Hc Ha. eexists. apply Server.admin_list_items; auto.
    apply find_sort_limit_project_total.
  - intros t limit. eexists. apply listLatest_total.
Qed.

Lemma listings_are_newest_first_witness :
  Server.admin_list Samples.up [Samples.first_note; Samples.second_note]
    (Server.Json 200 true
       (Some (map Mongo.project [Samples.second_note; Samples.first_note])))
  /\ Claims.newest_first (map Mongo.project [Samples.second_note; Samples.first_note]).
Proof.
  assert (H := proj2 either_order_is_an_answer).
  split; [exact H|].
  exact (proj1 (proj1 listings_are_newest_first _ _ _ H)).
Defined.

Section Exposure.

Import JS Mongo Server Claims.

(** The response is one of four. *)
Lemma submit_response e c req :
  fst (submit e c req) = InvalidLength
  \/ fst (submit e c req) = PiiDetected
  \/ fst (submit e c req) = DbError
  \/ exists id, insertedId e = Return id
                /\ fst (submit e c req) = Text 201 (ObjectId_toString id).
Proof.
  destruct (getCollection e) as [[]|] eqn:Hc.
  2: { rewrite submit_no_collection; auto. }
  destruct (coerced req) as [raw|] eqn:Hraw.
  2: { rewrite submit_coercion_throws; auto. }
  rewrite (@submit_cases e c req raw Hc Hraw).
  destruct ((List.length (trim raw) <? 10) || (2000 <? List.length (trim raw))); auto.
  destruct (risky_test (trim raw)); auto.
  destruct (insertedId e) as [id|]; simpl; eauto 6.
Qed.

(** The response depends on the body only, not on who sends it. *)
Lemma submit_response_body e c r1 r2 :
  same_body r1 r2 -> fst (submit e c r1) = fst (submit e c r2).
Proof.
  intros Hb.
  assert (Hco : coerced r1 = coerced r2) by (unfold coerced; now rewrite Hb).
  destruct (getCollection e) as [[]|] eqn:Hc.
  2: { now rewrite !submit_no_collection. }
  destruct (coerced r2) as [raw|] eqn:Hraw.
  2: { now rewrite !submit_coercion_throws. }
  rewrite (@submit_cases e c r1 raw Hc Hco), (@submit_cases e c r2 raw Hc Hraw).
  destruct ((List.length (trim raw) <? 10) || (2000 <? List.length (trim raw)));
    [reflexivity|].
  destruct (risky_test (trim raw)); [reflexivity|].
  destruct (insertedId e); reflexivity.
Qed.

End Exposure.

(** C9.  A 201 answer carries the id the driver assigned and nothing else;
    the answer to a submission is the same whatever the sender's address
    and user agent; and the answers of the admin listing, and of
    [listLatest], are the same for two stores that differ only in
    [ip_hash] and [ua]. *)
Theorem identity_is_not_exposed :
  (forall (e : Mongo.env) (c : Mongo.collection) (req : Server.request),
     Claims.accepted (fst (Server.submit e c req)) = true ->
     exists id,
       Mongo.insertedId e = JS.Return id
       /\ fst (Server.submit e c req) = Server.Text 201 (Mongo.ObjectId_toString id))
  /\ (forall (e : Mongo.env) (c : Mongo.collection) (r1 r2 : Server.request),
        Claims.same_body r1 r2 ->
        fst (Server.submit e c r1) = fst (Server.submit e c r2))
  /\ (forall (e : Mongo.env) (c1 c2 : Mongo.collection) (r : Server.response),
        Forall2 Claims.same_but_identity c1 c2 ->
        (Server.admin_list e c1 r <-> Server.admin_list e c2 r))
  /\ (forall (t1 t2 : Db.table) (limit : option Z) (out : list Db.listed),
        Forall2 Claims.same_but_identity_row (Db.rows t1) (Db.rows t2) ->
        (Db.listLatest t1 limit out <-> Db.listLatest t2 limit out)).
Proof.
  split; [|split; [|split]].
  - intros e c req Hacc.
    destruct (submit_response e c req) as [H|[H|[H|H]]];
      try (rewrite H in Hacc; discriminate Hacc).
    exact H.
  - intros e c r1 r2. apply submit_response_body.
  - intros e c1 c2 r HR. split; apply admin_list_blind; [exact HR|].
    apply Forall2_sym; [exact same_but_identity_sym|exact HR].
  - intros t1 t2 limit out HR. split; apply listLatest_blind; [exact HR|].
    apply Forall2_sym; [exact same_row_sym|exact HR].
Qed.

Lemma identity_is_not_exposed_witness :
  Claims.same_body (Samples.post (JS.Str Samples.downtown))
                   (Samples.proxied (JS.Str Samples.downtown))
  /\ fst (Server.submit Samples.up [] (Samples.post (JS.Str Samples.downtown)))
     = fst (Server.submit Samples.up [] (Samples.proxied (JS.Str Samples.downtown)))
  /\ Forall2 Claims.same_but_identity [Samples.first_note] [Samples.traced_note]
  /\ (Server.admin_list Samples.up [Samples.first_note]
        (Server.Json 200 true (Some [Mongo.project Samples.first_note]))
      <-> Server.admin_list Samples.up [Samples.traced_note]
            (Server.Json 200 true (Some [Mongo.project Samples.first_note]))).
Proof.
  assert (B : Claims.same_body (Samples.post (JS.Str Samples.downtown))
                               (Samples.proxied (JS.Str Samples.downtown)))
    by reflexivity.
  assert (R : Forall2 Claims.same_but_identity [Samples.first_note] [Samples.traced_note]).
  { constructor; [|constructor]. repeat split. }
  split; [exact B|]. split.
  - exact (proj1 (proj2 identity_is_not_exposed) Samples.up [] _ _ B).
  - split; [exact R|].
    exact (proj1 (proj2 (proj2 identity_is_not_exposed)) Samples.up _ _ _ R).
Defined.

Section Coercion.

Import JS Mongo Server Claims.

Lemma coerced_with_text req s : coerced (with_text req (Str s)) = Return s.
Proof. unfold coerced, with_text. simpl. apply coerce_string. Qed.

Lemma lang_of_with_text req v : lang_of (with_text req v) = lang_of req.
Proof. reflexivity. Qed.

Lemma built_with_text e req v text : built e (with_text req v) text = built e req text.
Proof. reflexivity. Qed.

(** A text that [toString] turns into [s] is handled as the string [s]. *)
Lemma submit_coerced e c req s :
  coerced req = Return s ->
  submit e c req = submit e c (with_text req (Str s)).
Proof.
  intros Hs. destruct (getCollection e) as [[]|] eqn:Hc.
  2: { now rewrite !submit_no_collection. }
  rewrite (@submit_cases e c req s Hc Hs), (@submit_cases e c _ s Hc (coerced_with_text req s)).
  now rewrite built_with_text.
Qed.

End Coercion.

(** C10, as the specification has it, fails: a text that is an empty
    object is not a string, is coerced to ["[object Object]"], and is
    accepted and stored. *)
Lemma non_string_text_counterexample :
  Claims.is_string (JS.get (Server.body (Samples.post (JS.Obj []))) (JS.lit "text")) = false
  /\ Server.submit Samples.up [] (Samples.post (JS.Obj []))
     = (Server.Text 201 (JS.lit "65f1a2b3c4d5e6f708192a3b"),
        [{| Mongo._id := Samples.new_id;
            Mongo.fields :=
              {| Mongo.text := JS.lit "[object Object]";
                 Mongo.lang := JS.lit "ru";
                 Mongo.status := JS.lit "pending";
                 Mongo.created_at := 1700000000000%Z;
                 Mongo.ip_hash := Some (JS.lit "12ca17b49af22894");
                 Mongo.ua := JS.lit "Mozilla/5.0" |} |}])
  /\ fst (Server.submit Samples.up [] (Samples.post (JS.Obj []))) <> Server.InvalidLength.
Proof.
  split; [reflexivity|]. split; [vm_compute; reflexivity|].
  intros H. vm_compute in H. discriminate H.
Qed.

(** C10, amended.  The handler answers every request with one of its four
    responses, and an exception in its body is answered [DB error] with the
    collection left as it was.  With the collection reachable, an absent,
    null or otherwise falsy text is coerced to the empty string and
    answered [Invalid length]; a truthy text is coerced by [toString()]: if
    that throws the answer is [DB error], and if it gives the string [s] the
    request is handled exactly as one whose text is [s]. *)
Theorem intake_coerces_text
    (e : Mongo.env) (c : Mongo.collection) (req : Server.request) :
  (fst (Server.submit e c req) = Server.InvalidLength
   \/ fst (Server.submit e c req) = Server.PiiDetected
   \/ fst (Server.submit e c req) = Server.DbError
   \/ exists id, Mongo.insertedId e = JS.Return id
                 /\ fst (Server.submit e c req)
                    = Server.Text 201 (Mongo.ObjectId_toString id))
  /\ (Server.submit_try e c req = JS.Throw ->
      Server.submit e c req = (Server.DbError, c))
  /\ (Mongo.getCollection e = JS.Return tt ->
      JS.truthy (JS.get (Server.body req) (JS.lit "text")) = false ->
      Server.submit e c req = (Server.InvalidLength, c))
  /\ (JS.truthy (JS.get (Server.body req) (JS.lit "text")) = true ->
      JS.toString (JS.get (Server.body req) (JS.lit "text")) = JS.Throw ->
      Server.submit e c req = (Server.DbError, c))
  /\ (forall s : JS.jsstring,
        JS.truthy (JS.get (Server.body req) (JS.lit "text")) = true ->
        JS.toString (JS.get (Server.body req) (JS.lit "text")) = JS.Return s ->
        Server.submit e c req
        = Server.submit e c (Claims.with_text req (JS.Str s))).
Proof.
  split; [apply submit_response|]. split; [|split; [|split]].
  - intros H. unfold Server.submit. now rewrite H.
  - intros Hc Hf.
    rewrite (@submit_cases e c req [] Hc (coerce_falsy _ Hf)). reflexivity.
  - intros Ht Hthrow. apply submit_coercion_throws.
    unfold Claims.coerced. now rewrite coerce_truthy.
  - intros s Ht Hs. apply submit_coerced.
    unfold Claims.coerced. now rewrite coerce_truthy.
Qed.

Lemma intake_coerces_text_witness :
  Mongo.getCollection Samples.up = JS.Return tt
  /\ JS.truthy (JS.get (Server.body (Samples.post JS.Null)) (JS.lit "text")) = false
  /\ Server.submit Samples.up [] (Samples.post JS.Null) = (Server.InvalidLength, [])
  /\ JS.toString (JS.get (Server.body (Samples.post (JS.Obj [(JS.lit "toString", JS.Null)])))
                         (JS.lit "text")) = JS.Throw
  /\ Server.submit Samples.up [] (Samples.post (JS.Obj [(JS.lit "toString", JS.Null)]))
     = (Server.DbError, [])
  /\ Server.submit Samples.up [] (Samples.post (JS.Arr [JS.Str Samples.downtown]))
     = Server.submit Samples.up []
         (Claims.with_text (Samples.post (JS.Arr [JS.Str Samples.downtown]))
                           (JS.Str Samples.downtown)).
Proof.
  split; [reflexivity|]. split; [reflexivity|]. split.
  - exact (proj1 (proj2 (proj2 (intake_coerces_text Samples.up []
             (Samples.post JS.Null)))) eq_refl eq_refl).
  - split; [reflexivity|]. split.
    + exact (proj1 (proj2 (proj2 (proj2 (intake_coerces_text Samples.up []
               (Samples.post (JS.Obj [(JS.lit "toString", JS.Null)])))))) eq_refl eq_refl).
    + exact (proj2 (proj2 (proj2 (proj2 (intake_coerces_text Samples.up []
               (Samples.post (JS.Arr [JS.Str Samples.downtown]))))))
               Samples.downtown eq_refl eq_refl).
Defined.

(* ===================================================================== *)
(** * Further properties of the code *)
(* ===================================================================== *)

(** ** Trimming *)

Section Trim.

Import JS.

Lemma trimStart_split s :
  exists sp, s = sp ++ trimStart s /\ Forall (fun c => is_space c = true) sp.
Proof.
  induction s as [|c s (sp & E & H)]; simpl.
  - exists []. auto.
  - destruct (is_space c) eqn:Hc.
    + exists (c :: sp). split; [now rewrite E at 1|now constructor].
    + exists []. auto.
Qed.

Lemma trimStart_head c s' s : trimStart s = c :: s' -> is_space c = false.
Proof.
  induction s as [|d s IH]; simpl; [discriminate|].
  destruct (is_space d) eqn:Hd; [exact IH|]. intros H. now injection H as <- _.
Qed.

Lemma trimStart_fixed c s : is_space c = false -> trimStart (c :: s) = c :: s.
Proof. simpl. now intros ->. Qed.

Lemma trimStart_idem s : trimStart (trimStart s) = trimStart s.
Proof.
  destruct (trimStart s) as [|c s'] eqn:E; [reflexivity|].
  apply trimStart_fixed. eapply trimStart_head; eauto.
Qed.

Lemma trimStart_spaces sp :
  Forall (fun c => is_space c = true) sp -> trimStart sp = [].
Proof. induction 1 as [|c sp Hc _ IH]; simpl; [reflexivity|]. now rewrite Hc. Qed.

Lemma trimStart_app_kept c s t :
  is_space c = false -> trimStart (s ++ c :: t) = trimStart s ++ c :: t
  \/ (trimStart s = [] /\ trimStart (s ++ c :: t) = c :: t).
Proof.
  intros Hc. induction s as [|d s IH]; simpl.
  - rewrite Hc. now left.
  - destruct (is_space d); [exact IH|now left].
Qed.

Lemma trimEnd_idem s : trimEnd (trimEnd s) = trimEnd s.
Proof. unfold trimEnd. now rewrite rev_involutive, trimStart_idem. Qed.

(** [trimEnd] keeps a first character that is not a space. *)
Lemma trimEnd_head c s :
  is_space c = false -> exists s', trimEnd (c :: s) = c :: s'.
Proof.
  intros Hc. unfold trimEnd. simpl.
  destruct (@trimStart_app_kept c (rev s) [] Hc) as [E|[_ E]]; rewrite E.
  - rewrite rev_app_distr. simpl. eauto.
  - simpl. eauto.
Qed.

Lemma trim_trimStart s : trimStart (trim s) = trim s.
Proof.
  unfold trim. destruct (trimStart s) as [|c s'] eqn:E; [reflexivity|].
  destruct (@trimEnd_head c s' (trimStart_head _ E)) as (s'' & ->).
  apply trimStart_fixed. eapply trimStart_head; eauto.
Qed.

(** Trimming twice is trimming once. *)
Lemma trim_idem s : trim (trim s) = trim s.
Proof.
  unfold trim at 1. rewrite trim_trimStart. unfold trim. apply trimEnd_idem.
Qed.

(** A text of spaces only trims to the empty string. *)
Lemma trim_spaces sp : Forall (fun c => is_space c = true) sp -> trim sp = [].
Proof. intros H. unfold trim. now rewrite trimStart_spaces. Qed.

Lemma trimEnd_length s : List.length (trimEnd s) <= List.length s.
Proof.
  unfold trimEnd. rewrite length_rev.
  destruct (trimStart_split (rev s)) as (sp & E & _).
  apply (f_equal (@List.length N)) in E. rewrite length_app, length_rev in E. lia.
Qed.

Lemma trim_length s : List.length (trim s) <= List.length s.
Proof.
  unfold trim. etransitivity; [apply trimEnd_length|].
  destruct (trimStart_split s) as (sp & E & _).
  apply (f_equal (@List.length N)) in E. rewrite length_app in E. lia.
Qed.

End Trim.

(** ** The submit handler, further *)

Section SubmitFacts.

Import JS Mongo Server Claims.

Lemma ip_hash_shape ip :
  ip_hash_of ip = None
  \/ exists h, ip_hash_of ip = Some h /\ List.length h = 16
               /\ Forall (fun c => hex_char c = true) h.
Proof.
  destruct ip as [|a ip]; [now left|]. right. eexists. split; [reflexivity|].
  unfold slice0. split.
  - now rewrite length_firstn, digest_hex_length.
  - apply Forall_firstn, digest_hex_chars.
Qed.

Lemma ua_of_length req : List.length (ua_of req) <= 180.
Proof. unfold ua_of, slice0. rewrite length_firstn. lia. Qed.

Lemma split_comma_0_first a rest :
  ~ In 44%N a -> split_comma_0 (a ++ 44%N :: rest) = a.
Proof.
  induction a as [|c a IH]; simpl; intros H; [reflexivity|].
  destruct (N.eqb_spec c 44); [tauto|]. f_equal. apply IH. tauto.
Qed.

Lemma split_comma_0_none a : ~ In 44%N a -> split_comma_0 a = a.
Proof.
  induction a as [|c a IH]; simpl; intros H; [reflexivity|].
  destruct (N.eqb_spec c 44); [tauto|]. f_equal. apply IH. tauto.
Qed.

End SubmitFacts.

(** X1.  A text that coerces to a string of valid trimmed length without a
    risky match is accepted when the write succeeds: the answer is 201 with
    the new id, and exactly one document is appended, holding the trimmed
    text, the normalised language, [pending], the clock, the fingerprint and
    the capped user agent. *)
Theorem clean_text_is_accepted
    (e : Mongo.env) (c : Mongo.collection) (req : Server.request)
    (raw : JS.jsstring) (id : Mongo.ObjectId) :
  Mongo.getCollection e = JS.Return tt ->
  Claims.coerced req = JS.Return raw ->
  Claims.valid_length (JS.trim raw) ->
  Server.risky_test (JS.trim raw) = false ->
  Mongo.insertedId e = JS.Return id ->
  Server.submit e c req
  = (Server.Text 201 (Mongo.ObjectId_toString id),
     c ++ [{| Mongo._id := id;
              Mongo.fields :=
                {| Mongo.text := JS.trim raw;
                   Mongo.lang := Server.lang_of req;
                   Mongo.status := JS.lit "pending";
                   Mongo.created_at := Mongo.now e;
                   Mongo.ip_hash := Server.ip_hash_of (Server.client_ip req);
                   Mongo.ua := Server.ua_of req |} |}]).
Proof.
  intros Hc Hraw Hlen Hpii Hid. rewrite (@submit_cases e c req raw Hc Hraw), Hpii, Hid.
  destruct ((List.length (JS.trim raw) <? 10) || (2000 <? List.length (JS.trim raw)))
    eqn:E; [|reflexivity].
  apply length_test in E. contradiction.
Qed.

Lemma clean_text_is_accepted_witness :
  Mongo.getCollection Samples.up = JS.Return tt
  /\ Claims.coerced (Samples.post (JS.Str Samples.downtown)) = JS.Return Samples.downtown
  /\ Claims.valid_length (JS.trim Samples.downtown)
  /\ Server.risky_test (JS.trim Samples.downtown) = false
  /\ Mongo.insertedId Samples.up = JS.Return Samples.new_id
  /\ fst (Server.submit Samples.up [] (Samples.post (JS.Str Samples.downtown)))
     = Server.Text 201 (Mongo.ObjectId_toString Samples.new_id).
Proof.
  assert (L : Claims.valid_length (JS.trim Samples.downtown)).
  { unfold Claims.valid_length. vm_compute. lia. }
  split; [reflexivity|]. split; [reflexivity|]. split; [exact L|].
  split; [reflexivity|]. split; [reflexivity|].
  rewrite (@clean_text_is_accepted Samples.up [] (Samples.post (JS.Str Samples.downtown))
             Samples.downtown Samples.new_id eq_refl eq_refl L eq_refl eq_refl).
  reflexivity.
Defined.



(** X3.  The handler keeps the collection well formed: if every document
    has a trimmed text of 10 to 2000 code units without a risky match, a
    language [en] or [ru], the status [pending], a user agent of at most 180
    code units and a fingerprint that is null or 16 hex digits, so has every
    document after any request. *)
Theorem submit_keeps_documents_well_formed
    (e : Mongo.env) (c : Mongo.collection) (req : Server.request) :
  Forall Facts.well_formed c ->
  Forall Facts.well_formed (snd (Server.submit e c req)).
Proof.
  intros Hc.
  destruct (submit_outcomes e c req) as [[_ ->]|(id & raw & Hg & Hraw & Hid & H)];
    [exact Hc|].
  pose proof (@submit_cases e c req raw Hg Hraw) as Hcases. rewrite H in Hcases.
  destruct ((List.length (JS.trim raw) <? 10) || (2000 <? List.length (JS.trim raw)))
    eqn:Elen.
  { injection Hcases as Hr _. vm_compute in Hr. discriminate Hr. }
  destruct (Server.risky_test (JS.trim raw)) eqn:Epii.
  { injection Hcases as Hr _. vm_compute in Hr. discriminate Hr. }
  rewrite H. simpl. apply Forall_app. split; [exact Hc|].
  constructor; [|constructor]. unfold Facts.well_formed. simpl.
  split; [apply trim_idem|]. split.
  { unfold Claims.valid_length. lia. }
  split; [exact Epii|]. split; [apply lang_of_ok|]. split; [reflexivity|].
  split; [apply ua_of_length|apply ip_hash_shape].
Qed.

Lemma submit_keeps_documents_well_formed_witness :
  Forall Facts.well_formed []
  /\ Forall Facts.well_formed
       (snd (Server.submit Samples.up [] (Samples.post (JS.Str Samples.downtown)))).
Proof.
  split; [constructor|].
  apply (@submit_keeps_documents_well_formed Samples.up []
           (Samples.post (JS.Str Samples.downtown))).
  constructor.
Defined.

(** X4.  White space around the text does not matter: a request whose text
    coerces to [raw] is handled exactly as one whose text is the string
    [raw] trimmed. *)
Theorem surrounding_space_is_ignored
    (e : Mongo.env) (c : Mongo.collection) (req : Server.request) (raw : JS.jsstring) :
  Claims.coerced req = JS.Return raw ->
  Server.submit e c req
  = Server.submit e c (Claims.with_text req (JS.Str (JS.trim raw))).
Proof.
  intros Hraw. destruct (Mongo.getCollection e) as [[]|] eqn:Hc.
  2: { now rewrite !submit_no_collection. }
  rewrite (@submit_cases e c req raw Hc Hraw).
  rewrite (@submit_cases e c _ (JS.trim raw) Hc (coerced_with_text req (JS.trim raw))).
  now rewrite trim_idem, built_with_text.
Qed.

Lemma surrounding_space_is_ignored_witness :
  Claims.coerced (Samples.post (JS.Str (JS.lit "   Saw something odd downtown today  ")))
  = JS.Return (JS.lit "   Saw something odd downtown today  ")
  /\ Server.submit Samples.up []
       (Samples.post (JS.Str (JS.lit "   Saw something odd downtown today  ")))
     = Server.submit Samples.up []
         (Claims.with_text
            (Samples.post (JS.Str (JS.lit "   Saw something odd downtown today  ")))
            (JS.Str (JS.trim (JS.lit "   Saw something odd downtown today  ")))).
Proof.
  split; [reflexivity|].
  exact (@surrounding_space_is_ignored Samples.up []
           (Samples.post (JS.Str (JS.lit "   Saw something odd downtown today  ")))
           _ eq_refl).
Defined.

(** X5.  A text made of white space only, however long, is answered
    [Invalid length]. *)
Theorem blank_text_is_invalid
    (e : Mongo.env) (c : Mongo.collection) (req : Server.request) (raw : JS.jsstring) :
  Mongo.getCollection e = JS.Return tt ->
  Claims.coerced req = JS.Return raw ->
  Forall (fun ch => JS.is_space ch = true) raw ->
  Server.submit e c req = (Server.InvalidLength, c).
Proof.
  intros Hc Hraw Hsp. rewrite (@submit_cases e c req raw Hc Hraw).
  now rewrite (@trim_spaces raw Hsp).
Qed.

Lemma blank_text_is_invalid_witness :
  Forall (fun ch => JS.is_space ch = true) (repeat 32%N 40)
  /\ Server.submit Samples.up [] (Samples.post (JS.Str (repeat 32%N 40)))
     = (Server.InvalidLength, []).
Proof.
  assert (H : Forall (fun ch => JS.is_space ch = true) (repeat 32%N 40)).
  { apply Forall_forall. intros x Hx. apply repeat_spec in Hx. now subst. }
  split; [exact H|].
  exact (@blank_text_is_invalid Samples.up [] (Samples.post (JS.Str (repeat 32%N 40)))
           (repeat 32%N 40) eq_refl eq_refl H).
Defined.

(** X6.  Of [x-forwarded-for] only the first entry counts: what follows the
    first comma is ignored; the first entry, trimmed, is the address when it
    is not empty, and otherwise the socket address is, whatever the later
    entries are. *)
Theorem only_first_forwarded_entry_counts
    (req : Server.request) (first rest : JS.jsstring) :
  ~ In 44%N first ->
  Server.client_ip (Facts.forwarded_for req (Some (first ++ 44%N :: rest)))
  = Server.client_ip (Facts.forwarded_for req (Some first))
  /\ (JS.trim first <> [] ->
      Server.client_ip (Facts.forwarded_for req (Some (first ++ 44%N :: rest)))
      = JS.trim first)
  /\ (JS.trim first = [] ->
      Server.client_ip (Facts.forwarded_for req (Some (first ++ 44%N :: rest)))
      = Server.or_empty (Server.remoteAddress req)).
Proof.
  intros Hno. unfold Server.client_ip, Facts.forwarded_for. simpl.
  rewrite (@split_comma_0_first first rest Hno), (@split_comma_0_none first Hno).
  split; [reflexivity|]. split.
  - intros H. destruct (JS.trim first); [contradiction|reflexivity].
  - intros ->. reflexivity.
Qed.

Lemma only_first_forwarded_entry_counts_witness :
  ~ In 44%N (JS.lit " 203.0.113.7 ")
  /\ Server.client_ip
       (Facts.forwarded_for (Samples.post JS.Null)
          (Some (JS.lit " 203.0.113.7 " ++ 44%N :: JS.lit " 10.0.0.1")))
     = JS.lit "203.0.113.7".
Proof.
  assert (H : ~ In 44%N (JS.lit " 203.0.113.7 ")).
  { intros H. vm_compute in H. repeat (destruct H as [H|H]; [discriminate H|]). exact H. }
  split; [exact H|].
  rewrite (proj1 (proj2 (@only_first_forwarded_entry_counts (Samples.post JS.Null)
                           (JS.lit " 203.0.113.7 ") (JS.lit " 10.0.0.1") H))).
  - reflexivity.
  - discriminate.
Defined.

(** ** The abuse filter, further *)

Section FilterFacts.

Import JS Server.

Lemma contains_app (P : jsstring -> Prop) pre s post :
  Pii.contains P s -> Pii.contains P (pre ++ s ++ post).
Proof.
  intros (pre' & w & post' & -> & H).
  exists (pre ++ pre'), w, (post' ++ post). split; [|exact H].
  now rewrite <- !app_assoc.
Qed.

Lemma plain_no_match s :
  forallb Facts.plain s = true ->
  ~ In 64%N s /\ ~ In 47%N s /\ Pii.digits s = 0.
Proof.
  unfold Pii.digits. induction s as [|c s IH]; simpl; [auto|].
  intros H. apply andb_true_iff in H as [Hc Hs]. destruct (IH Hs) as (A & B & D).
  unfold Facts.plain in Hc.
  destruct (Pii.digit c) eqn:Ed; [discriminate Hc|]. simpl in Hc.
  split; [|split; [|exact D]]; intros [E|E]; auto; subst; discriminate Hc.
Qed.

End FilterFacts.

(** X7.  A text without a digit, an [@] and a [/] is never flagged. *)
Theorem plain_text_is_not_flagged (text : JS.jsstring) :
  forallb Facts.plain text = true -> Server.risky_test text = false.
Proof.
  intros H. apply plain_no_match in H as (Hat & Hsl & Hd).
  destruct (Server.risky_test text) eqn:E; [|reflexivity]. exfalso.
  apply risky_test_spec in E as [E|[E|E]].
  - destruct E as (pre & w & post & -> & Hw).
    apply phone_like_bounds in Hw as [_ Hw]. rewrite !digits_app in Hd. lia.
  - apply Hat. eapply contains_char; [exact email_has_at|exact E].
  - apply Hsl. eapply contains_char; [exact invite_has_slash|exact E].
Qed.

Lemma plain_text_is_not_flagged_witness :
  forallb Facts.plain Samples.downtown = true
  /\ Server.risky_test Samples.downtown = false.
Proof.
  split; [reflexivity|].
  exact (@plain_text_is_not_flagged Samples.downtown eq_refl).
Defined.

(** X8.  Nine digits in a row are flagged wherever they stand in the
    text. *)
Theorem nine_digits_in_a_row_are_flagged (pre ds post : JS.jsstring) :
  Pii.all Pii.digit ds -> 9 <= List.length ds ->
  Server.risky_test (pre ++ ds ++ post) = true.
Proof.
  intros Hds Hlen. apply risky_test_spec. left.
  exists pre, ds, post. split; [reflexivity|].
  destruct ds as [|d run]; [simpl in Hlen; lia|].
  inversion Hds as [|? ? Hd Hrun]; subst.
  exists d, run. split; [reflexivity|]. split; [exact Hd|].
  split; [simpl in Hlen; lia|].
  eapply Forall_impl; [|exact Hrun]. simpl. intros c Hc.
  unfold Pii.phone_char. now rewrite Hc.
Qed.

Lemma nine_digits_in_a_row_are_flagged_witness :
  Pii.all Pii.digit (JS.lit "123456789")
  /\ Server.risky_test (JS.lit "call " ++ JS.lit "123456789" ++ JS.lit " now") = true.
Proof.
  assert (H : Pii.all Pii.digit (JS.lit "123456789")).
  { unfold Pii.all. repeat constructor. }
  split; [exact H|].
  apply nine_digits_in_a_row_are_flagged; [exact H|]. vm_compute. lia.
Defined.

(** X9.  Text around a match cannot hide it: a flagged text stays flagged
    when anything is put before or after it. *)
Theorem padding_does_not_hide_a_match (pre text post : JS.jsstring) :
  Server.risky_test text = true ->
  Server.risky_test (pre ++ text ++ post) = true.
Proof.
  intros H. apply risky_test_spec in H. apply risky_test_spec.
  destruct H as [H|[H|H]]; [left|right; left|right; right];
    now apply contains_app.
Qed.

Lemma padding_does_not_hide_a_match_witness :
  Server.risky_test (JS.lit "a@b.co") = true
  /\ Server.risky_test (JS.lit "write to " ++ JS.lit "a@b.co" ++ JS.lit " today") = true.
Proof.
  split; [reflexivity|].
  exact (@padding_does_not_hide_a_match (JS.lit "write to ") (JS.lit "a@b.co")
           (JS.lit " today") eq_refl).
Defined.

Section LetterCase.

Import JS RegExp.

Ltac by_cases :=
  repeat match goal with
         | |- context [if ?b then _ else _] => destruct b eqn:?
         end; lia.

Lemma upper_cases c :
  upper c = c
  \/ (upper (upper c) = upper c /\ lower (upper c) = c /\ lower c = c).
Proof. unfold upper, lower, in_range. by_cases. Qed.

Lemma lower_cases c :
  lower c = c
  \/ (lower (lower c) = lower c /\ upper (lower c) = c /\ upper c = c).
Proof. unfold upper, lower, in_range. by_cases. Qed.

Lemma member_i_upper cs c : member_i cs (upper c) = member_i cs c.
Proof.
  unfold member_i. destruct (upper_cases c) as [E|(E1 & E2 & E3)].
  - now rewrite !E.
  - rewrite E1, E2, E3. destruct (member cs c), (member cs (upper c)); reflexivity.
Qed.

Lemma member_i_lower_case cs c : member_i cs (lower c) = member_i cs c.
Proof.
  unfold member_i. destruct (lower_cases c) as [E|(E1 & E2 & E3)].
  - now rewrite !E.
  - rewrite E1, E2, E3. destruct (member cs c), (member cs (lower c)); reflexivity.
Qed.

Variable f : N -> N.
Hypothesis f_same : forall cs c, member_i cs (f c) = member_i cs c.

Lemma denotes_map r : forall w,
  denotes (membership true) r (map f w) <-> denotes (membership true) r w.
Proof.
  induction r as [cs|cs min max|r1 IH1 r2 IH2|r1 IH1 r2 IH2]; intros w; simpl.
  - split.
    + intros (c & E & Hc). destruct w as [|c0 [|? ?]]; try discriminate E.
      injection E as <-. exists c0. split; [reflexivity|]. now rewrite <- f_same.
    + intros (c & -> & Hc). exists (f c). split; [reflexivity|]. now rewrite f_same.
  - rewrite length_map, Forall_map. split; intros (H & ?); (split; [|assumption]);
      (eapply Forall_impl; [|exact H]); simpl; intros c Hc;
      [now rewrite <- f_same|now rewrite f_same].
  - split.
    + intros (w1 & w2 & E & D1 & D2).
      apply map_eq_app in E as (v1 & v2 & -> & <- & <-).
      exists v1, v2. split; [reflexivity|]. split; [now apply IH1|now apply IH2].
    + intros (w1 & w2 & -> & D1 & D2). exists (map f w1), (map f w2).
      rewrite map_app. split; [reflexivity|]. split; [now apply IH1|now apply IH2].
  - now rewrite IH1, IH2.
Qed.

Lemma test_map r s : test true r (map f s) = test true r s.
Proof.
  apply eq_true_iff_eq. rewrite !test_spec. split.
  - intros (pre & w & post & E & D).
    apply map_eq_app in E as (pre' & rest & -> & <- & E).
    apply map_eq_app in E as (w' & post' & -> & <- & <-).
    exists pre', w', post'. split; [reflexivity|]. now apply denotes_map.
  - intros (pre & w & post & -> & D).
    exists (map f pre), (map f w), (map f post). rewrite !map_app.
    split; [reflexivity|]. now apply denotes_map.
Qed.

End LetterCase.

(** X10.  The filter ignores the case of the letters a to z: turning them
    all to upper case, or all to lower case, does not change the verdict. *)
Theorem filter_ignores_letter_case (text : JS.jsstring) :
  Server.risky_test (map RegExp.upper text) = Server.risky_test text
  /\ Server.risky_test (map RegExp.lower text) = Server.risky_test text.
Proof.
  unfold Server.risky_test. split; apply test_map.
  - exact member_i_upper.
  - exact member_i_lower_case.
Qed.

(** ** The SQLite table, further *)

Section TableFacts.

Import JS Db.









End TableFacts.











(** X16.  What is accepted is listed: when the collection holds fewer than
    50 documents, every answer of the admin listing after an accepted
    submission shows it, with the id that was answered, the trimmed text,
    the status [pending] and the time of the submission. *)
Theorem accepted_submission_is_listed
    (e e' : Mongo.env) (c : Mongo.collection) (req : Server.request)
    (items : list Mongo.item) :
  Claims.accepted (fst (Server.submit e c req)) = true ->
  List.length c < 50 ->
  Server.admin_list e' (snd (Server.submit e c req))
    (Server.Json 200 true (Some items)) ->
  exists it,
    In it items
    /\ fst (Server.submit e c req)
       = Server.Text 201 (Mongo.ObjectId_toString (Mongo.item_id it))
    /\ Mongo.item_status it = JS.lit "pending"
    /\ Mongo.item_created_at it = Mongo.now e
    /\ Mongo.item_lang it = Server.lang_of req
    /\ forall raw, Claims.coerced req = JS.Return raw -> Mongo.item_text it = JS.trim raw.
Proof.
  intros Hacc Hlen Hlist.
  destruct (submit_outcomes e c req) as [[H _]|(id & raw & _ & Hraw & _ & H)];
    [congruence|].
  rewrite H in *. simpl in Hlist |- *.
  inversion Hlist as [items' _ _ (sorted & [Hperm _] & Hitems)|]; subst.
  exists (Mongo.project {| Mongo._id := id;
                           Mongo.fields := Claims.built e req (JS.trim raw) |}).
  split; [|split; [reflexivity|split; [reflexivity|split; [reflexivity|split;
    [reflexivity|]]]]].
  - apply in_map. rewrite firstn_all2.
    + eapply Permutation_in; [exact Hperm|]. apply in_or_app. right. now left.
    + rewrite <- (Permutation_length Hperm), length_app. simpl. lia.
  - intros raw' Hraw'. simpl. congruence.
Qed.

Lemma accepted_submission_is_listed_witness :
  Claims.accepted
    (fst (Server.submit Samples.up [] (Samples.post (JS.Str Samples.downtown)))) = true
  /\ exists it,
       In it [Mongo.project
                {| Mongo._id := Samples.new_id;
                   Mongo.fields := Claims.built Samples.up
                                     (Samples.post (JS.Str Samples.downtown))
                                     Samples.downtown |}]
       /\ Mongo.item_status it = JS.lit "pending".
Proof.
  split; [reflexivity|].
  assert (L : Server.admin_list Samples.up
                (snd (Server.submit Samples.up [] (Samples.post (JS.Str Samples.downtown))))
                (Server.Json 200 true
                   (Some [Mongo.project
                            {| Mongo._id := Samples.new_id;
                               Mongo.fields := Claims.built Samples.up
                                                 (Samples.post (JS.Str Samples.downtown))
                                                 Samples.downtown |}]))).
  { apply Server.admin_list_items; try reflexivity.
    eexists. split; [split; [reflexivity|repeat constructor]|reflexivity]. }
  destruct (@accepted_submission_is_listed Samples.up Samples.up []
              (Samples.post (JS.Str Samples.downtown)) _ eq_refl
              (le_n_S _ _ (Nat.le_0_l 49)) L)
    as (it & Hin & _ & Hst & _).
  exists it. split; [exact Hin|exact Hst].
Defined.

(** ** The connection *)

Section ConnectionFacts.

Import JS Connect.

Lemma getCollection_cached p a s h :
  col s = Some h -> getCollection p a s = (Return h, s).
Proof. intros H. unfold getCollection. now rewrite H. Qed.

Lemma getCollection_no_uri p a s :
  col s = None -> no_uri p = true -> getCollection p a s = (Throw, s).
Proof. intros H U. unfold getCollection. now rewrite H, U. Qed.

Lemma closeMongo_resets a s :
  mongoClient (closeMongo a s) = None /\ col (closeMongo a s) = None
  /\ made (closeMongo a s) = made s.
Proof.
  unfold closeMongo. destruct (mongoClient s); simpl; destruct (close_ok a); auto.
Qed.

Lemma getCollection_coherent p a s :
  coherent s -> coherent (snd (getCollection p a s)).
Proof.
  intros H. unfold getCollection.
  destruct (col s) as [h|] eqn:E; [exact H|].
  destruct (no_uri p); [exact H|].
  destruct H as [_ Hm]. destruct (connect_ok a); simpl.
  2: { split; simpl; [discriminate|]. intros n H. injection H as <-. lia. }
  destruct (createIndex1_ok a), (createIndex2_ok a), (ping_ok a); simpl;
    (split; simpl; [intros h H; now injection H as <-
                   |intros n H; injection H as <-; lia]).
Qed.

Lemma closeMongo_coherent a s : coherent (closeMongo a s).
Proof.
  destruct (closeMongo_resets a s) as (Hm & Hc & _).
  split; [rewrite Hc|rewrite Hm]; discriminate.
Qed.

Lemma health_coherent p a s : coherent s -> coherent (snd (health p a s)).
Proof.
  intros H. unfold health, health_try. destruct (no_uri p); [exact H|].
  pose proof (getCollection_coherent p a H) as G.
  destruct (getCollection p a s) as [[h|] s']; simpl in *; [|exact G].
  destruct (count_ok a); exact G.
Qed.

Lemma step_coherent p s o : coherent s -> coherent (step p s o).
Proof.
  destruct o; simpl; intros H;
    [now apply getCollection_coherent|apply closeMongo_coherent|now apply health_coherent].
Qed.

Lemma run_coherent p ops : forall s, coherent s -> coherent (run p ops s).
Proof.
  unfold run. induction ops as [|o ops IH]; intros s H; simpl; [exact H|].
  apply IH. now apply step_coherent.
Qed.

Lemma initial_coherent : coherent initial.
Proof. split; simpl; discriminate. Qed.

Lemma step_no_uri p o : no_uri p = true -> step p initial o = initial.
Proof.
  intros U. destruct o; simpl.
  - now rewrite getCollection_no_uri.
  - reflexivity.
  - unfold health, health_try. now rewrite U.
Qed.

Lemma run_no_uri p ops : no_uri p = true -> run p ops initial = initial.
Proof.
  intros U. unfold run. induction ops as [|o ops IH]; simpl; [reflexivity|].
  now rewrite step_no_uri.
Qed.

End ConnectionFacts.

(** X17.  Once [connect()] has succeeded the collection is cached, also
    when the call then fails: the call returns the handle of the new
    client, for the configured database and collection, exactly when both
    [createIndex] calls and the ping succeed, and throws otherwise; either
    way every later call returns that handle and contacts nothing, so an
    index whose creation failed is not created later. *)
Theorem handle_is_cached_once_connected
    (p : Connect.process_env) (a : Connect.answers) (s : Connect.state) :
  Connect.col s = None ->
  Connect.no_uri p = false ->
  Connect.connect_ok a = true ->
  exists h,
    Connect.col (snd (Connect.getCollection p a s)) = Some h
    /\ h = {| Connect.of_client := Connect.made s;
              Connect.db := Connect.DB_NAME p;
              Connect.name := Connect.COLLECTION p |}
    /\ (fst (Connect.getCollection p a s) = JS.Return h
        <-> Connect.createIndex1_ok a && Connect.createIndex2_ok a
            && Connect.ping_ok a = true)
    /\ (fst (Connect.getCollection p a s) = JS.Throw
        <-> Connect.createIndex1_ok a && Connect.createIndex2_ok a
            && Connect.ping_ok a = false)
    /\ forall a',
         Connect.getCollection p a' (snd (Connect.getCollection p a s))
         = (JS.Return h, snd (Connect.getCollection p a s)).
Proof.
  intros Hcol Huri Hcon.
  remember (Connect.getCollection p a s) as g eqn:G.
  unfold Connect.getCollection in G. rewrite Hcol, Huri, Hcon in G. simpl in G.
  eexists.
  destruct (Connect.createIndex1_ok a), (Connect.createIndex2_ok a),
    (Connect.ping_ok a); simpl in G; subst g; simpl;
    (split; [reflexivity|]); (split; [reflexivity|]);
    (split; [split; congruence|]); (split; [split; congruence|]);
    intros a'; reflexivity.
Qed.

Lemma handle_is_cached_once_connected_witness :
  Connect.col Connect.initial = None
  /\ Connect.no_uri More.local = false
  /\ fst (Connect.getCollection More.local More.no_index Connect.initial) = JS.Throw
  /\ exists h,
       Connect.col (snd (Connect.getCollection More.local More.no_index Connect.initial))
       = Some h
       /\ Connect.getCollection More.local More.all_ok
            (snd (Connect.getCollection More.local More.no_index Connect.initial))
          = (JS.Return h,
             snd (Connect.getCollection More.local More.no_index Connect.initial)).
Proof.
  split; [reflexivity|]. split; [reflexivity|]. split; [reflexivity|].
  destruct (@handle_is_cached_once_connected More.local More.no_index Connect.initial
              eq_refl eq_refl eq_refl) as (h & Hc & _ & _ & _ & Hl).
  exists h. split; [exact Hc|apply Hl].
Defined.

(** X18.  A handle is returned only from the cache, with nothing contacted
    and nothing changed, or after a new client connected, both indexes were
    created and the server answered the ping, in that order. *)
Theorem returned_handle_is_set_up
    (p : Connect.process_env) (a : Connect.answers) (s s' : Connect.state)
    (h : Connect.handle) :
  Connect.getCollection p a s = (JS.Return h, s') ->
  (Connect.col s = Some h /\ s' = s)
  \/ (Connect.col s = None
      /\ Connect.no_uri p = false
      /\ Connect.connect_ok a = true /\ Connect.createIndex1_ok a = true
      /\ Connect.createIndex2_ok a = true /\ Connect.ping_ok a = true
      /\ Connect.mongoClient s' = Some (Connect.made s)
      /\ Connect.col s' = Some h
      /\ Connect.of_client h = Connect.made s
      /\ Connect.log s'
         = Connect.log s
           ++ [Connect.Connected (Connect.made s);
               Connect.CreateIndex (Connect.made s) Connect.by_status_created;
               Connect.CreateIndex (Connect.made s) Connect.by_created;
               Connect.Ping (Connect.made s)]).
Proof.
  unfold Connect.getCollection. destruct (Connect.col s) as [h0|] eqn:Hcol.
  - intros H. injection H as <- <-. now left.
  - destruct (Connect.no_uri p); [discriminate|].
    destruct (Connect.connect_ok a); [|discriminate].
    destruct (Connect.createIndex1_ok a); [|discriminate].
    destruct (Connect.createIndex2_ok a); [|discriminate].
    destruct (Connect.ping_ok a); [|discriminate].
    simpl. intros H. injection H as <- <-. right. simpl.
    rewrite <- !app_assoc. simpl. repeat split.
Qed.

Lemma returned_handle_is_set_up_witness :
  Connect.getCollection More.local More.all_ok Connect.initial
  = (JS.Return {| Connect.of_client := 0; Connect.db := JS.lit "gossip";
                  Connect.name := JS.lit "submissions" |},
     snd (Connect.getCollection More.local More.all_ok Connect.initial))
  /\ Connect.log (snd (Connect.getCollection More.local More.all_ok Connect.initial))
     = [Connect.Connected 0;
        Connect.CreateIndex 0 Connect.by_status_created;
        Connect.CreateIndex 0 Connect.by_created;
        Connect.Ping 0].
Proof.
  assert (H : Connect.getCollection More.local More.all_ok Connect.initial
              = (JS.Return {| Connect.of_client := 0; Connect.db := JS.lit "gossip";
                              Connect.name := JS.lit "submissions" |},
                 snd (Connect.getCollection More.local More.all_ok Connect.initial)))
    by reflexivity.
  split; [exact H|].
  destruct (@returned_handle_is_set_up _ _ _ _ _ H) as [[D _]|(_ & _ & _ & _ & _ & _ & _ & _ & _ & L)].
  - discriminate D.
  - exact L.
Defined.

(** X19.  Without [MONGODB_URI] (unset or empty) the server is never
    contacted: after any sequence of [getCollection], [closeMongo] and
    health checks from the start of the process the state is still the
    initial one; [getCollection] throws, the health check answers 200 with
    [ok: true, db: false], and a submission is answered [DB error] with
    nothing stored. *)
Theorem without_uri_nothing_is_contacted
    (p : Connect.process_env) (ops : list Connect.op) (a : Connect.answers)
    (e : Mongo.env) (c : Mongo.collection) (req : Server.request) :
  Connect.no_uri p = true ->
  Connect.run p ops Connect.initial = Connect.initial
  /\ Connect.getCollection p a (Connect.run p ops Connect.initial)
     = (JS.Throw, Connect.initial)
  /\ Connect.health p a (Connect.run p ops Connect.initial)
     = (Connect.Health 200 true false, Connect.initial)
  /\ Connect.post_submit p a (Connect.run p ops Connect.initial) e c req
     = (Server.DbError, c, Connect.initial).
Proof.
  intros U. rewrite (@run_no_uri p ops U).
  assert (G : Connect.getCollection p a Connect.initial = (JS.Throw, Connect.initial)).
  { now apply getCollection_no_uri. }
  split; [reflexivity|]. split; [exact G|]. split.
  - unfold Connect.health, Connect.health_try. now rewrite U.
  - unfold Connect.post_submit. rewrite G. simpl.
    now rewrite submit_no_collection.
Qed.

Lemma without_uri_nothing_is_contacted_witness :
  Connect.no_uri More.unset = true
  /\ Connect.health More.unset More.all_ok
       (Connect.run More.unset
          [Connect.GetCollection More.all_ok; Connect.CloseMongo More.all_ok]
          Connect.initial)
     = (Connect.Health 200 true false, Connect.initial).
Proof.
  split; [reflexivity|].
  exact (proj1 (proj2 (proj2 (@without_uri_nothing_is_contacted More.unset
           [Connect.GetCollection More.all_ok; Connect.CloseMongo More.all_ok]
           More.all_ok Samples.up [] (Samples.post JS.Null) eq_refl)))).
Defined.

(** X20.  Whatever runs, in whatever order and with whatever answers from
    the server, a cached collection belongs to the current client, and the
    current client is one the process made. *)
Theorem cached_collection_is_of_current_client
    (p : Connect.process_env) (ops : list Connect.op) :
  Connect.coherent (Connect.run p ops Connect.initial).
Proof. apply run_coherent, initial_coherent. Qed.

(** X21.  [closeMongo] forgets the client and the collection whether or not
    [close()] throws, and calls [close()] only when there is a client; the
    next [getCollection] then connects a client that is not the one
    closed. *)
Theorem close_then_reconnect
    (p : Connect.process_env) (a a' : Connect.answers) (s : Connect.state) :
  Connect.coherent s ->
  Connect.no_uri p = false ->
  Connect.connect_ok a' = true ->
  Connect.mongoClient (Connect.closeMongo a s) = None
  /\ Connect.col (Connect.closeMongo a s) = None
  /\ Connect.log (Connect.closeMongo a s)
     = match Connect.mongoClient s with
       | Some n => Connect.log s ++ [Connect.Closed n]
       | None => Connect.log s
       end
  /\ Connect.mongoClient (snd (Connect.getCollection p a' (Connect.closeMongo a s)))
     = Some (Connect.made s)
  /\ Connect.mongoClient s <> Some (Connect.made s).
Proof.
  intros [_ Hm] U C.
  destruct (closeMongo_resets a s) as (Rm & Rc & Rn).
  split; [exact Rm|]. split; [exact Rc|]. split; [|split].
  - unfold Connect.closeMongo. destruct (Connect.mongoClient s);
      destruct (Connect.close_ok a); reflexivity.
  - unfold Connect.getCollection. rewrite Rc, U, C, Rn. simpl.
    destruct (Connect.createIndex1_ok a'), (Connect.createIndex2_ok a'),
      (Connect.ping_ok a'); reflexivity.
  - intros H. apply Hm in H. lia.
Qed.

Lemma close_then_reconnect_witness :
  Connect.coherent (snd (Connect.getCollection More.local More.all_ok Connect.initial))
  /\ Connect.mongoClient
       (snd (Connect.getCollection More.local More.all_ok
               (Connect.closeMongo More.close_fails
                  (snd (Connect.getCollection More.local More.all_ok Connect.initial)))))
     = Some 1.
Proof.
  assert (H : Connect.coherent
                (snd (Connect.getCollection More.local More.all_ok Connect.initial))).
  { split; simpl; intros x E; injection E as <-; [reflexivity|lia]. }
  split; [exact H|].
  exact (proj1 (proj2 (proj2 (proj2 (@close_then_reconnect More.local More.close_fails
           More.all_ok _ H eq_refl eq_refl))))).
Defined.

(** X22.  The health check answers one of three things: without
    [MONGODB_URI], 200 with [db: false] and nothing contacted; [db: true]
    exactly when the collection is obtained and the count succeeds; and 500
    with [ok: false] exactly when, with a URI, one of the two fails. *)
Theorem health_reports_the_database
    (p : Connect.process_env) (a : Connect.answers) (s : Connect.state) :
  (Connect.no_uri p = true ->
   Connect.health p a s = (Connect.Health 200 true false, s))
  /\ (fst (Connect.health p a s) = Connect.Health 200 true true
      <-> Connect.no_uri p = false /\ Connect.count_ok a = true
          /\ exists h, fst (Connect.getCollection p a s) = JS.Return h)
  /\ (fst (Connect.health p a s) = Connect.Health 500 false false
      <-> Connect.no_uri p = false
          /\ (fst (Connect.getCollection p a s) = JS.Throw
              \/ Connect.count_ok a = false))
  /\ (fst (Connect.health p a s) = Connect.Health 200 true false
      \/ fst (Connect.health p a s) = Connect.Health 200 true true
      \/ fst (Connect.health p a s) = Connect.Health 500 false false).
Proof.
  unfold Connect.health, Connect.health_try.
  destruct (Connect.no_uri p).
  - split; [reflexivity|]. simpl.
    split; [split; [discriminate|intros [D _]; discriminate D]|].
    split; [split; [discriminate|intros [D _]; discriminate D]|auto].
  - split; [discriminate|].
    destruct (Connect.getCollection p a s) as [[h|] s']; simpl.
    + destruct (Connect.count_ok a); simpl.
      * split; [split; eauto|]. split; [|auto].
        split; [discriminate|]. intros [_ [D|D]]; discriminate D.
      * split; [split; [discriminate|intros (_ & D & _); discriminate D]|].
        split; [|auto]. split; auto.
    + split; [split; [discriminate|intros (_ & _ & ? & D); discriminate D]|].
      split; [|auto]. split; auto.
Qed.

Lemma health_reports_the_database_witness :
  Connect.no_uri More.unset = true
  /\ Connect.health More.unset More.all_ok Connect.initial
     = (Connect.Health 200 true false, Connect.initial)
  /\ fst (Connect.health More.local More.all_ok Connect.initial)
     = Connect.Health 200 true true.
Proof.
  split; [reflexivity|]. split.
  - exact (proj1 (health_reports_the_database More.unset More.all_ok Connect.initial)
             eq_refl).
  - apply (proj1 (proj2 (health_reports_the_database More.local More.all_ok
                           Connect.initial))).
    split; [reflexivity|]. split; [reflexivity|]. eexists. reflexivity.
Defined.
